(** * SketchPro drawing surface: history, layers and tool state

    A shallow embedding of [src/pages/index.tsx] (the [DrawingApp] React
    component).  The component state (the [useState] hooks), the canvas
    bitmap and the 2D context are threaded explicitly; every event handler
    is a function on sessions, followed by the effect phase React runs
    after the re-render; image decodes ([new Image(); img.onload = ...;
    img.src = ...]) are queued and fire as separate events.

    Conventions.  A handler reads the hooks of the render it was created
    in, which is the session it is applied to; an [onload] closure carries
    the values it captured.  Functional updates ([setX(prev => ...)]) and
    the order of the effects follow the source.  The canvas and its 2D
    context exist from the first effect on, so the null checks on the two
    refs always pass.  Pointer coordinates and the brush size are integers.
    The dimensions of the canvas are not carried: [blank] is the cleared
    bitmap at whatever dimensions the canvas has, and [drawImage] draws a
    decoded bitmap at its origin, cropped or padded when the dimensions
    differ.  Only the law [drawImage_blank] of [Lossless] presumes bitmaps
    of the dimensions of the canvas; the properties stated under it speak
    of a bitmap that was encoded from the canvas it is drawn back on.
    The browser's canvas (pixels, PNG codec, rasterisation) is a parameter,
    [CanvasAPI]; closed examples run on the reference canvas [recorder]. *)

From Stdlib Require Import ZArith Ascii String Lia.
From stdpp Require Import base decidable option list strings pretty.

Local Open Scope string_scope.
Local Open Scope list_scope.
Local Open Scope Z_scope.

(** ** The JavaScript primitives the component relies on *)

Module JS.

(** A JavaScript number that holds an integer, or [NaN] ([None]).  The
    component only ever computes [parseInt (id) + 1] on layer ids.  The
    integer is kept as a [Z], which is the value of the double as long as
    it is a safe integer, [|z| < 2^53]: there [parseInt], [+ 1] and
    [toString] are exact and [toString] prints plain decimal digits.
    Beyond that range a double rounds ([2^53 + 1] is [2^53]) and, from
    [10^21] on, prints in exponent notation; that is outside the model,
    and every property below that reads an id it did not itself produce
    carries the bound [safe_integer].  The ids the component produces
    count the layers of the store, and a JavaScript array holds fewer
    than [2^32] elements. *)
Definition Num := option Z.

Definition safe_integer (z : Z) : Prop := Z.abs z < 2 ^ 53.

(** Strings are sequences of bytes: the UTF-8 form of the JavaScript
    string, as the string literals of this file are. *)
Definition code (c : ascii) : Z := Z.of_N (N_of_ascii c).

(** [StrWhiteSpaceChar], by the length of the character in UTF-8.  One
    byte: TAB, LF, VT, FF, CR and SPACE.  A byte [A0] on its own, which is
    how a Latin-1 reading of a string spells U+00A0, is skipped as well;
    no well-formed UTF-8 string has it at the start of a character. *)
Definition is_white (c : ascii) : bool :=
  let n := code c in ((9 <=? n) && (n <=? 13)) || (n =? 32) || (n =? 160).

(** Two bytes: U+00A0 (no-break space), [C2 A0]. *)
Definition is_white2 (a b : ascii) : bool :=
  (code a =? 194) && (code b =? 160).

(** Three bytes: U+1680 [E1 9A 80]; U+2000 to U+200A [E2 80 80..8A];
    U+2028 and U+2029 (line and paragraph separator) [E2 80 A8], [E2 80 A9];
    U+202F [E2 80 AF]; U+205F [E2 81 9F]; U+3000 [E3 80 80]; U+FEFF (byte
    order mark) [EF BB BF]. *)
Definition is_white3 (a b c : ascii) : bool :=
  let x := code a in
  let y := code b in
  let z := code c in
  ((x =? 225) && (y =? 154) && (z =? 128))
  || ((x =? 226) && (y =? 128)
      && (((128 <=? z) && (z <=? 138)) || (z =? 168) || (z =? 169)
          || (z =? 175)))
  || ((x =? 226) && (y =? 129) && (z =? 159))
  || ((x =? 227) && (y =? 128) && (z =? 128))
  || ((x =? 239) && (y =? 187) && (z =? 191)).

Fixpoint trim_start (s : string) : string :=
  match s with
  | String a r =>
      if is_white a then trim_start r
      else
        match r with
        | String b r2 =>
            if is_white2 a b then trim_start r2
            else
              match r2 with
              | String c r3 => if is_white3 a b c then trim_start r3 else s
              | EmptyString => s
              end
        | EmptyString => s
        end
  | EmptyString => s
  end.

(** The value of [c] as a digit of the given radix, if it is one. *)
Definition digit_val (radix : Z) (c : ascii) : option Z :=
  let n := code c in
  let v := if (48 <=? n) && (n <=? 57) then Some (n - 48)
           else if (97 <=? n) && (n <=? 122) then Some (n - 87)
           else if (65 <=? n) && (n <=? 90) then Some (n - 55)
           else None in
  match v with
  | Some d => if d <? radix then Some d else None
  | None => None
  end.

(** The longest prefix of [s] made of digits of the radix. *)
Fixpoint leading_digits (radix : Z) (s : string) : list Z :=
  match s with
  | String c r =>
      match digit_val radix c with
      | Some d => d :: leading_digits radix r
      | None => []
      end
  | EmptyString => []
  end.

Definition digits_value (radix : Z) (ds : list Z) : Z :=
  fold_left (fun acc d => acc * radix + d) ds 0.

(** The sign of [parseInt]'s input and the input without its sign. *)
Definition strip_sign (s : string) : Z * string :=
  match s with
  | String c r =>
      if Ascii.eqb c "-" then (-1, r)
      else if Ascii.eqb c "+" then (1, r)
      else (1, s)
  | EmptyString => (1, s)
  end.

(** The radix of [parseInt]'s input, 16 after a [0x] or [0X] prefix and 10
    otherwise, and the input without that prefix. *)
Definition strip_radix (s : string) : Z * string :=
  match s with
  | String a (String b r) =>
      if Ascii.eqb a "0" && (Ascii.eqb b "x" || Ascii.eqb b "X")
      then (16, r) else (10, s)
  | _ => (10, s)
  end.

(** [parseInt(s)] with no radix argument: skip leading white space, read
    an optional sign, switch to radix 16 on a [0x]/[0X] prefix, read the
    longest run of digits; [NaN] when there is none. *)
Definition parseInt (s : string) : Num :=
  let '(sign, s2) := strip_sign (trim_start s) in
  let '(radix, s3) := strip_radix s2 in
  match leading_digits radix s3 with
  | [] => None
  | ds => Some (sign * digits_value radix ds)
  end.

(** [n + 1] on numbers: [NaN + 1] is [NaN].  Exact on the safe integers
    below [2^53 - 1]. *)
Definition add1 (n : Num) : Num := (fun z => z + 1) <$> n.

(** [Number.prototype.toString()] on an integer value, or on [NaN]: the
    decimal digits, with a minus sign for a negative value, which is what
    a double prints below [10^21]. *)
Definition toString (n : Num) : string :=
  match n with
  | Some z => pretty z
  | None => "NaN"
  end.

(** [s || d] on strings: the empty string is the only falsy string. *)
Definition or_else (s d : string) : string :=
  if decide (s = EmptyString) then d else s.

(** [Array.prototype.slice(0, n)]: a negative [n] counts from the end. *)
Definition slice0 {A} (n : Z) (l : list A) : list A :=
  if n <? 0 then take (Z.to_nat (Z.max (Z.of_nat (length l) + n) 0)) l
  else take (Z.to_nat n) l.

(** [arr[i]] for an integer [i]: [undefined] out of range. *)
Definition index {A} (l : list A) (i : Z) : option A :=
  if i <? 0 then None else l !! Z.to_nat i.

End JS.

(** ** Data model *)

(** [useState<'brush' | 'eraser' | 'rectangle' | 'circle'>]. *)
Inductive Tool := brush | eraser | rectangle | circle.

Global Instance Tool_eq_dec : EqDecision Tool.
Proof. solve_decision. Defined.

(** An element of the [layers] array; [data] is the layer's data URL. *)
Record Layer := mkLayer {
  id : string;
  name : string;
  visible : bool;
  data : string
}.

Global Instance Layer_eq_dec : EqDecision Layer.
Proof. solve_decision. Defined.

(** The path of the 2D context.  Coordinates are canvas-local pointer
    positions ([clientX - rect.left]), taken to be integers.  [PArc x y r]
    is [arc(x, y, r, 0, 2 * Math.PI)], the only arc the component draws. *)
Inductive PathCmd :=
| MoveTo (x y : Z)
| LineTo (x y : Z)
| PRect (x y w h : Z)
| PArc (x y r : Z)
| ClosePath.

Global Instance PathCmd_eq_dec : EqDecision PathCmd.
Proof. solve_decision. Defined.

(** What the browser provides and the source does not define: the bitmap
    of the canvas, PNG encoding and decoding, and rasterisation. *)
Class CanvasAPI := {
  (** the pixels of the canvas bitmap, at its current size *)
  Pixels : Type;
  (** the bitmap after [clearRect(0, 0, canvas.width, canvas.height)] *)
  blank : Pixels;
  (** [canvas.toDataURL('image/png')] *)
  toDataURL : Pixels -> string;
  (** [img.src = url]: [Some bitmap] when the image loads and [onload]
      fires, [None] when it does not (no [onerror] handler is installed) *)
  loadImage : string -> option Pixels;
  (** [ctx.drawImage(img, 0, 0)] onto the given bitmap *)
  drawImage : Pixels -> Pixels -> Pixels;
  (** [ctx.stroke()] of a path with a stroke style and a line width (the
      line cap and join are always ['round']) *)
  stroke : string -> Z -> list PathCmd -> Pixels -> Pixels
}.

(** A codec that loses nothing: decoding a data URL the canvas produced
    gives the encoded bitmap back, drawing a bitmap on a cleared canvas
    gives that bitmap, and a data URL is never the empty string.  The
    second law holds of bitmaps that have the dimensions of the canvas,
    that is, as long as no resize changed them since the bitmap was
    encoded. *)
Class Lossless (api : CanvasAPI) : Prop := {
  load_toDataURL : forall p : Pixels, loadImage (toDataURL p) = Some p;
  drawImage_blank : forall img : Pixels, drawImage img blank = img;
  toDataURL_nonempty : forall p : Pixels, toDataURL p <> EmptyString
}.

(** The [useState] hooks of the component that the drawing core reads.
    The panel, menu and welcome-modal flags only select markup. *)
Record Hooks := mkHooks {
  darkMode : bool;
  isDrawing : bool;
  tool : Tool;
  color : string;
  brushSize : Z;
  startX : Z;
  startY : Z;
  history : list string;
  currentStep : Z;
  layers : list Layer;
  activeLayer : string
}.

(** [contextRef.current]: the state of the 2D context the component
    sets. *)
Record Context2D := mkCtx {
  strokeStyle : string;
  lineWidth : Z;
  path : list PathCmd
}.

(** The three [img.onload] closures of the source, with the values each one
    captured from the render in which it was created. *)
Inductive OnLoad :=
| ReplayOnLoad (active entry : string)
| PreviewOnLoad (t : Tool) (c : string) (b : Z) (sx sy x y : Z)
| SwitchOnLoad.

(** An image whose [src] has been set and whose load has not completed. *)
Record Decode := mkDecode {
  src : string;
  onload : OnLoad
}.

(** [prevLayers.map(layer => layer.id === a ? {...layer, data: d} : layer)] *)
Definition set_layer_data (a d : string) (ls : list Layer) : list Layer :=
  map (fun l => if decide (id l = a)
                then mkLayer (id l) (name l) (visible l) d else l) ls.

(** [layers.find(layer => layer.id === i)] *)
Definition find_layer (i : string) (ls : list Layer) : option Layer :=
  List.find (fun l => bool_decide (id l = i)) ls.

(** The values of the hooks on the first render. *)
Definition initial_hooks : Hooks :=
  {| darkMode := false; isDrawing := false; tool := brush;
     color := "#000000"; brushSize := 5; startX := 0; startY := 0;
     history := []; currentStep := -1;
     layers := [mkLayer "1" "Layer 1" true EmptyString]; activeLayer := "1" |}.

(** The path the shape preview strokes. *)
Definition shape_path (t : Tool) (sx sy x y : Z) : list PathCmd :=
  match t with
  | rectangle => [PRect sx sy (x - sx) (y - sy)]
  | circle =>
      let radiusX := Z.abs (x - sx) in
      let radiusY := Z.abs (y - sy) in
      let radius := Z.max radiusX radiusY in
      [PArc sx sy radius]
  | _ => []
  end.

(** The opposite corners of the rectangle [rect(x, y, w, h)] adds. *)
Definition rect_corners (x y w h : Z) : (Z * Z) * (Z * Z) :=
  ((x, y), (x + w, y + h)).

(** The colour behind the canvas bitmap.  The source gives the canvas
    element the class [bg-gray-700] when [darkMode] is set and [bg-white]
    otherwise; the colours of the two classes are not in the repository and
    are taken from the Tailwind 2.2.19 style sheet the page links. *)
Definition canvas_background (dark : bool) : string :=
  if dark then "#374151" else "#ffffff".

(** ** The component *)

Section Component.
Context {api : CanvasAPI}.

(** A session: the hooks, the canvas bitmap ([canvasRef.current]), the 2D
    context ([contextRef.current]) and the decodes in flight, oldest
    first. *)
Record Session := mkSession {
  hooks : Hooks;
  canvas : Pixels;
  ctx : Context2D;
  pending : list Decode
}.

Definition with_hooks (h : Hooks) (s : Session) : Session :=
  mkSession h (canvas s) (ctx s) (pending s).
Definition with_canvas (p : Pixels) (s : Session) : Session :=
  mkSession (hooks s) p (ctx s) (pending s).
Definition with_ctx (c : Context2D) (s : Session) : Session :=
  mkSession (hooks s) (canvas s) c (pending s).
Definition request (d : Decode) (s : Session) : Session :=
  mkSession (hooks s) (canvas s) (ctx s) (pending s ++ [d]).

(** *** State setters *)

Definition setDarkMode (b : bool) (h : Hooks) : Hooks :=
  mkHooks b (isDrawing h) (tool h) (color h) (brushSize h) (startX h)
    (startY h) (history h) (currentStep h) (layers h) (activeLayer h).
Definition setIsDrawing (b : bool) (h : Hooks) : Hooks :=
  mkHooks (darkMode h) b (tool h) (color h) (brushSize h) (startX h)
    (startY h) (history h) (currentStep h) (layers h) (activeLayer h).
Definition setTool (t : Tool) (h : Hooks) : Hooks :=
  mkHooks (darkMode h) (isDrawing h) t (color h) (brushSize h) (startX h)
    (startY h) (history h) (currentStep h) (layers h) (activeLayer h).
Definition setColor (c : string) (h : Hooks) : Hooks :=
  mkHooks (darkMode h) (isDrawing h) (tool h) c (brushSize h) (startX h)
    (startY h) (history h) (currentStep h) (layers h) (activeLayer h).
Definition setBrushSize (b : Z) (h : Hooks) : Hooks :=
  mkHooks (darkMode h) (isDrawing h) (tool h) (color h) b (startX h)
    (startY h) (history h) (currentStep h) (layers h) (activeLayer h).
Definition setStart (x y : Z) (h : Hooks) : Hooks :=
  mkHooks (darkMode h) (isDrawing h) (tool h) (color h) (brushSize h) x y
    (history h) (currentStep h) (layers h) (activeLayer h).
Definition setHistory (l : list string) (h : Hooks) : Hooks :=
  mkHooks (darkMode h) (isDrawing h) (tool h) (color h) (brushSize h)
    (startX h) (startY h) l (currentStep h) (layers h) (activeLayer h).
Definition setCurrentStep (n : Z) (h : Hooks) : Hooks :=
  mkHooks (darkMode h) (isDrawing h) (tool h) (color h) (brushSize h)
    (startX h) (startY h) (history h) n (layers h) (activeLayer h).
Definition setLayers (l : list Layer) (h : Hooks) : Hooks :=
  mkHooks (darkMode h) (isDrawing h) (tool h) (color h) (brushSize h)
    (startX h) (startY h) (history h) (currentStep h) l (activeLayer h).
Definition setActiveLayer (a : string) (h : Hooks) : Hooks :=
  mkHooks (darkMode h) (isDrawing h) (tool h) (color h) (brushSize h)
    (startX h) (startY h) (history h) (currentStep h) (layers h) a.

(** *** Effects *)

(** [resizeCanvas], run by the first effect and on every window resize.
    Assigning [canvas.width] clears the bitmap and resets the context;
    [color] and [brushSize] are those of the first render, the only one
    whose closure this effect keeps.  The new dimensions are those of the
    container, which the session does not carry: the result is [blank],
    the cleared bitmap at the new dimensions.  What was encoded before a
    resize decodes to a bitmap of the old dimensions, which [drawImage]
    crops or pads. *)
Definition resizeCanvas (s : Session) : Session :=
  with_ctx (mkCtx (color initial_hooks) (brushSize initial_hooks) [])
    (with_canvas blank s).

(** [useEffect(..., [color, brushSize, tool])] *)
Definition style_effect (s : Session) : Session :=
  let h := hooks s in
  with_ctx (mkCtx (if decide (tool h = eraser) then "#ffffff" else color h)
                  (brushSize h) (path (ctx s))) s.

(** [useEffect(..., [isDrawing])]: the commit of a finished action.  The
    canvas is mounted whenever an effect runs, so [canvasRef.current] is
    never null here. *)
Definition commit_effect (s : Session) : Session :=
  let h := hooks s in
  if isDrawing h then s
  else
    let newData := toDataURL (canvas s) in
    let h1 := setLayers (set_layer_data (activeLayer h) newData (layers h)) h in
    let h2 :=
      if currentStep h <? Z.of_nat (length (history h)) - 1
      then setHistory (JS.slice0 (currentStep h + 1) (history h1) ++ [newData]) h1
      else setHistory (history h1 ++ [newData]) h1 in
    with_hooks (setCurrentStep (currentStep h2 + 1) h2) s.

(** The effect phase after a re-render: an effect runs when one of its
    dependencies differs from the previous render.  The state the commit
    effect sets causes one more render, in which no dependency changes. *)
Definition run_effects (old : Hooks) (s : Session) : Session :=
  let h := hooks s in
  let s1 :=
    if decide (color old = color h /\ brushSize old = brushSize h
               /\ tool old = tool h)
    then s else style_effect s in
  if decide (isDrawing old = isDrawing h) then s1 else commit_effect s1.

(** After the first render every effect runs, in the order of the source. *)
Definition mount : Session :=
  commit_effect
    (style_effect
       (resizeCanvas
          (mkSession initial_hooks blank (mkCtx "#000000" 1 []) []))).

(** *** Event handlers *)

Definition startDrawing (x y : Z) (s : Session) : Session :=
  let h := hooks s in
  let s1 :=
    if decide (tool h = brush \/ tool h = eraser)
    then with_ctx (mkCtx (strokeStyle (ctx s)) (lineWidth (ctx s))
                         [MoveTo x y]) s
    else s in
  with_hooks (setIsDrawing true (setStart x y h)) s1.

Definition draw (x y : Z) (s : Session) : Session :=
  let h := hooks s in
  if negb (isDrawing h) then s
  else if decide (tool h = brush \/ tool h = eraser) then
    let c := ctx s in
    let p := path c ++ [LineTo x y] in
    with_canvas (stroke (strokeStyle c) (lineWidth c) p (canvas s))
      (with_ctx (mkCtx (strokeStyle c) (lineWidth c) p) s)
  else
    let s1 := with_canvas blank s in
    match find_layer (activeLayer h) (layers h) with
    | Some l =>
        if decide (data l = EmptyString) then s1
        else request (mkDecode (data l)
                        (PreviewOnLoad (tool h) (color h) (brushSize h)
                           (startX h) (startY h) x y)) s1
    | None => s1
    end.

Definition stopDrawing (s : Session) : Session :=
  let h := hooks s in
  if negb (isDrawing h) then s
  else
    let c := ctx s in
    with_hooks (setIsDrawing false h)
      (with_ctx (mkCtx (strokeStyle c) (lineWidth c) (path c ++ [ClosePath])) s).

Definition drawFromHistory (step : Z) (s : Session) : Session :=
  let h := hooks s in
  let s1 := with_canvas blank s in
  match JS.index (history h) step with
  | Some e =>
      if decide (e = EmptyString) then s1
      else request (mkDecode e (ReplayOnLoad (activeLayer h) e)) s1
  | None => s1
  end.

Definition undo (s : Session) : Session :=
  let h := hooks s in
  if 0 <? currentStep h
  then drawFromHistory (currentStep h - 1)
         (with_hooks (setCurrentStep (currentStep h - 1) h) s)
  else s.

Definition redo (s : Session) : Session :=
  let h := hooks s in
  if currentStep h <? Z.of_nat (length (history h)) - 1
  then drawFromHistory (currentStep h + 1)
         (with_hooks (setCurrentStep (currentStep h + 1) h) s)
  else s.

Definition clearCanvas (s : Session) : Session :=
  let h := hooks s in
  let clearedData := toDataURL blank in
  let h1 := setHistory (history h ++ [clearedData]) h in
  let h2 := setCurrentStep (currentStep h1 + 1) h1 in
  let h3 := setLayers (set_layer_data (activeLayer h) clearedData (layers h2)) h2 in
  with_hooks h3 (with_canvas blank s).

Definition addLayer (s : Session) : Session :=
  let h := hooks s in
  let lastId := match last (layers h) with
                | Some l => JS.or_else (id l) "0"
                | None => "0"
                end in
  let newId := JS.toString (JS.add1 (JS.parseInt lastId)) in
  let newLayer :=
    mkLayer newId ("Layer " +:+ newId) true
      (JS.or_else (toDataURL (canvas s)) EmptyString) in
  with_hooks (setActiveLayer newId (setLayers (layers h ++ [newLayer]) h)) s.

Definition toggleLayerVisibility (i : string) (s : Session) : Session :=
  let h := hooks s in
  with_hooks
    (setLayers
       (map (fun l => if decide (id l = i)
                      then mkLayer (id l) (name l) (negb (visible l)) (data l)
                      else l) (layers h)) h) s.

Definition switchLayer (i : string) (s : Session) : Session :=
  let h := hooks s in
  let currentData := toDataURL (canvas s) in
  let h1 := setLayers (set_layer_data (activeLayer h) currentData (layers h)) h in
  let s1 := with_hooks (setActiveLayer i h1) s in
  match find_layer i (layers h) with
  | Some selectedLayer =>
      if decide (data selectedLayer = EmptyString) then s1
      else request (mkDecode (data selectedLayer) SwitchOnLoad) s1
  | None => s1
  end.

(** [downloadImage] offers this data URL as [drawing.png]; the session
    is not touched. *)
Definition downloadImage (s : Session) : string := toDataURL (canvas s).

(** *** Image loads *)

(** The body of an [onload] closure, run with the decoded image. *)
Definition on_load (cb : OnLoad) (img : Pixels) (s : Session) : Session :=
  match cb with
  | ReplayOnLoad active entry =>
      with_hooks (setLayers (set_layer_data active entry (layers (hooks s)))
                    (hooks s))
        (with_canvas (drawImage img (canvas s)) s)
  | PreviewOnLoad t c b sx sy x y =>
      let p := shape_path t sx sy x y in
      with_canvas (stroke c b p (drawImage img (canvas s)))
        (with_ctx (mkCtx c b p) s)
  | SwitchOnLoad =>
      with_canvas (drawImage img blank) s
  end.

(** The oldest decode in flight completes: its closure runs if the image
    loaded, and nothing happens if it did not. *)
Definition image_loaded (s : Session) : Session :=
  match pending s with
  | [] => s
  | d :: rest =>
      let s1 := mkSession (hooks s) (canvas s) (ctx s) rest in
      match loadImage (src d) with
      | Some img => on_load (onload d) img s1
      | None => s1
      end
  end.

(** *** Events *)

Inductive Event :=
| SetTool (t : Tool)
| SetColor (c : string)
| IncreaseSize
| DecreaseSize
| ToggleDarkMode
| PointerDown (x y : Z)
| PointerMove (x y : Z)
| PointerUp
| Undo
| Redo
| Clear
| AddLayer
| ToggleVisibility (i : string)
| SwitchLayer (i : string)
| Download
| Resize
| ImageLoaded.

Definition handle (e : Event) (s : Session) : Session :=
  let h := hooks s in
  match e with
  | SetTool t => with_hooks (setTool t h) s
  | SetColor c => with_hooks (setColor c h) s
  | IncreaseSize => with_hooks (setBrushSize (Z.min (brushSize h + 1) 30) h) s
  | DecreaseSize => with_hooks (setBrushSize (Z.max (brushSize h - 1) 1) h) s
  | ToggleDarkMode => with_hooks (setDarkMode (negb (darkMode h)) h) s
  | PointerDown x y => startDrawing x y s
  | PointerMove x y => draw x y s
  | PointerUp => stopDrawing s
  | Undo => undo s
  | Redo => redo s
  | Clear => clearCanvas s
  | AddLayer => addLayer s
  | ToggleVisibility i => toggleLayerVisibility i s
  | SwitchLayer i => switchLayer i s
  | Download => s
  | Resize => resizeCanvas s
  | ImageLoaded => image_loaded s
  end.

(** One turn of the event loop: the handler, the re-render, the effects. *)
Definition step (e : Event) (s : Session) : Session :=
  run_effects (hooks s) (handle e s).

Definition run (es : list Event) (s : Session) : Session :=
  fold_left (fun acc e => step e acc) es s.

(** Every decode in flight completes, oldest first. *)
Definition settle (s : Session) : Session :=
  run (replicate (length (pending s)) ImageLoaded) s.

(** An operation followed by the completion of the decodes it started. *)
Definition perform (e : Event) (s : Session) : Session :=
  settle (step e s).

End Component.

(** ** A reference canvas

    An implementation of the canvas interface on which sessions can be
    evaluated: the bitmap is the text of the paint operations applied since
    it was last cleared, a data URL is that text behind the PNG prefix, and
    [decodes] tells which URLs load ([fun _ => true] for a browser that
    decodes whatever it encoded, [fun _ => false] for one whose decodes
    all fail). *)

Definition show_cmd (c : PathCmd) : string :=
  match c with
  | MoveTo x y => "M" +:+ pretty x +:+ "," +:+ pretty y
  | LineTo x y => "L" +:+ pretty x +:+ "," +:+ pretty y
  | PRect x y w h =>
      "R" +:+ pretty x +:+ "," +:+ pretty y +:+ "," +:+ pretty w +:+ ","
          +:+ pretty h
  | PArc x y r => "A" +:+ pretty x +:+ "," +:+ pretty y +:+ "," +:+ pretty r
  | ClosePath => "Z"
  end.

Definition show_path (p : list PathCmd) : string :=
  fold_right (fun c r => show_cmd c +:+ ";" +:+ r) EmptyString p.

Fixpoint strip_prefix (pre s : string) : option string :=
  match pre, s with
  | EmptyString, _ => Some s
  | String a pre', String b s' =>
      if Ascii.eqb a b then strip_prefix pre' s' else None
  | String _ _, EmptyString => None
  end.

Definition png_prefix : string := "data:image/png;base64,".

Definition recorder (decodes : string -> bool) : CanvasAPI :=
  {| Pixels := string;
     blank := EmptyString;
     toDataURL := fun p => png_prefix +:+ p;
     loadImage := fun url => if decodes url then strip_prefix png_prefix url
                             else None;
     drawImage := fun img cv => cv +:+ img;
     stroke := fun style w p cv =>
       cv +:+ "[" +:+ style +:+ " " +:+ pretty w +:+ " " +:+ show_path p
          +:+ "]" |}.

(** The browser that decodes every data URL it produced. *)
Definition faithful : CanvasAPI := recorder (fun _ => true).


(** ** Vocabulary of the properties *)

(** The string of a list of decimal digits, most significant first, and
    the number it denotes. *)
Definition digits_string (ds : list N) : string :=
  fold_right (fun d r => String (pretty_N_char d) r) EmptyString ds.

Definition N_digits_value (ds : list N) : N :=
  fold_left (fun acc d => acc * 10 + d)%N ds 0%N.

(** The rule the specification words for new layer ids, to be compared
    with what [addLayer] reads: the highest numeric id of the store ([NaN]
    when no id is numeric). *)
Definition spec_highest_id (ls : list Layer) : JS.Num :=
  fold_right
    (fun l acc =>
       match JS.parseInt (id l), acc with
       | Some a, Some b => Some (Z.max a b)
       | Some a, None => Some a
       | None, _ => acc
       end) None ls.

(** The id [addLayer] gives the [k]-th layer of a store that grew by
    [addLayer] alone. *)
Definition next_id (k : nat) : string := pretty (Z.of_nat k).

(** The ids of such a store: ["1"], ["2"], ... in list order. *)
Definition sequential_ids (ls : list Layer) : Prop :=
  map id ls = map next_id (seq 1 (length ls)).

Section Vocabulary.
Context {api : CanvasAPI}.

(** The session invariant on layers: ids are unique, [activeLayer] is
    the id of a layer of the store, and exactly one layer carries it. *)
Definition layer_invariant (s : Session) : Prop :=
  let h := hooks s in
  NoDup (map id (layers h))
  /\ In (activeLayer h) (map id (layers h))
  /\ length (filter (fun l => id l = activeLayer h) (layers h)) = 1%nat.

(** The history invariant: the cursor is [-1] on an empty history and an
    index of the history otherwise. *)
Definition history_invariant (s : Session) : Prop :=
  let h := hooks s in
  -1 <= currentStep h < Z.of_nat (length (history h))
  /\ (history h = [] <-> currentStep h = -1).

(** Events that neither start nor finish a draw action and are not
    [clear], [undo] or [redo]. *)
Definition history_neutral (e : Event) : bool :=
  match e with
  | PointerDown _ _ | PointerUp | Clear | Undo | Redo => false
  | _ => true
  end.

(** A completed draw action: what happens before the pointer goes down,
    the anchor, and what happens until the pointer is released. *)
Record DrawAction := mkAction {
  before : list Event;
  anchor : Z * Z;
  during : list Event
}.

Definition action_events (a : DrawAction) : list Event :=
  before a ++ [PointerDown (fst (anchor a)) (snd (anchor a))]
    ++ during a ++ [PointerUp].

Definition plain_action (a : DrawAction) : Prop :=
  forallb history_neutral (before a) = true
  /\ forallb history_neutral (during a) = true.

(** What the surrounding markup can ask for: [switchLayer] is only ever
    called with the id of a layer of the list it renders. *)
Definition caller_ok (e : Event) (s : Session) : Prop :=
  match e with
  | SwitchLayer i => In i (map id (layers (hooks s)))
  | _ => True
  end.

(** The sessions a user can reach from the mounted component. *)
Inductive reachable : Session -> Prop :=
| reach_mount : reachable mount
| reach_step s e : reachable s -> caller_ok e s -> reachable (step e s).

(** The strengthening of the layer invariant that every step preserves. *)
Definition store_ok (s : Session) : Prop :=
  sequential_ids (layers (hooks s))
  /\ layers (hooks s) <> []
  /\ In (activeLayer (hooks s)) (map id (layers (hooks s))).

(** A raster that is a data URL the canvas produced. *)
Definition encoded (u : string) : Prop := exists p : Pixels, u = toDataURL p.

Definition rasters_encoded (s : Session) : Prop :=
  Forall (fun l => encoded (data l)) (layers (hooks s))
  /\ Forall encoded (history (hooks s))
  /\ Forall (fun d => match onload d with
                      | ReplayOnLoad _ e => encoded e
                      | _ => True
                      end) (pending s).

(** The session [drawFromHistory n] leads to once its decode, if any,
    has completed: the canvas is cleared at once, and the entry is drawn
    and stored in the active layer only if it is a non-empty string that
    loads. *)
Definition replayed (n : Z) (s : Session) : Session :=
  let h := hooks s in
  let cleared := with_canvas blank s in
  match JS.index (history h) n with
  | Some e =>
      if decide (e = EmptyString) then cleared
      else match loadImage e with
           | Some img =>
               with_hooks
                 (setLayers (set_layer_data (activeLayer h) e (layers h)) h)
                 (with_canvas (drawImage img blank) s)
           | None => cleared
           end
  | None => cleared
  end.

(** What [setLayers] with [set_layer_data] never touches. *)
Definition layer_shape (l : Layer) : string * string * bool :=
  (id l, name l, visible l).

(** What a replay of entry [n] has led to in [s'], started in [s], once
    every decode in flight has completed: the cursor is [n], the history
    is that of [s], and if the entry is a non-empty string that loads,
    its image was the last thing drawn on the canvas (on the cleared
    canvas, if no other decode was in flight) and, layer by layer in
    store order, every layer with the active id holds the entry as its
    raster, while ids, names and visibility are kept (and so are the
    other rasters, if no other decode was in flight). *)
Definition replay_outcome (n : Z) (s s' : Session) : Prop :=
  let h := hooks s in
  currentStep (hooks s') = n
  /\ history (hooks s') = history h
  /\ forall e img,
       JS.index (history h) n = Some e -> e <> EmptyString ->
       loadImage e = Some img ->
       (exists under, canvas s' = drawImage img under
                      /\ (pending s = [] -> under = blank))
       /\ Forall2 (fun l l' =>
                     id l' = id l /\ name l' = name l
                     /\ visible l' = visible l
                     /\ (id l = activeLayer h -> data l' = e)
                     /\ (pending s = [] -> id l <> activeLayer h ->
                         data l' = data l))
            (layers h) (layers (hooks s')).

End Vocabulary.

(** ** Sample sessions on the reference canvas *)

(** Two freehand strokes. *)
Definition two_strokes : list Event :=
  [PointerDown 1 2; PointerMove 3 4; PointerUp;
   PointerDown 5 6; PointerMove 7 8; PointerUp].

(** Two strokes, then one undo whose decode completes. *)
Definition two_strokes_undone : list Event :=
  two_strokes ++ [Undo; ImageLoaded].

(** A second layer is added and receives two strokes, the second stroke is
    undone, and the first layer is made active again. *)
Definition back_on_first_layer : list Event :=
  [AddLayer] ++ two_strokes_undone ++ [SwitchLayer "1"; ImageLoaded].

(** The rectangle tool with the pointer down at (10, 10). *)
Definition rectangle_anchored : list Event :=
  [SetTool rectangle; PointerDown 10 10].

(** The mounted session of the reference canvas with its store replaced
    by layers of the given ids, in the given order. *)
Definition store_of (ids : list string) : Session (api := faithful) :=
  let m := mount (api := faithful) in
  with_hooks
    (setLayers (map (fun i => mkLayer i ("Layer " +:+ i) true png_prefix) ids)
       (hooks m)) m.

(** ** Vocabulary of the further properties *)

(** What identifies a layer in the list the markup renders. *)
Definition id_name (l : Layer) : string * string := (id l, name l).

(** The pointer moves of a gesture through the given points. *)
Definition moves (pts : list (Z * Z)) : list Event :=
  map (fun p => PointerMove (fst p) (snd p)) pts.

Definition line_to (p : Z * Z) : PathCmd := LineTo (fst p) (snd p).



(** White space of more than one byte: U+00A0 (no-break space), U+2003
    (em space) and U+FEFF (byte order mark) in UTF-8. *)
Definition no_break_space : string :=
  String (ascii_of_nat 194) (String (ascii_of_nat 160) EmptyString).

Definition em_space : string :=
  String (ascii_of_nat 226)
    (String (ascii_of_nat 128) (String (ascii_of_nat 131) EmptyString)).

Definition byte_order_mark : string :=
  String (ascii_of_nat 239)
    (String (ascii_of_nat 187) (String (ascii_of_nat 191) EmptyString)).

Global Instance Event_eq_dec : EqDecision Event.
Proof. solve_decision. Defined.

Section Gestures.
Context {api : CanvasAPI}.

(** The bitmap after a freehand gesture: every move extends the path and
    strokes the whole of it again. *)
Fixpoint paint_moves (style : string) (w : Z) (p : list PathCmd)
    (pts : list (Z * Z)) (cv : Pixels) : Pixels :=
  match pts with
  | [] => cv
  | pt :: rest =>
      let p' := p ++ [line_to pt] in
      paint_moves style w p' rest (stroke style w p' cv)
  end.

(** The widths the session holds are brush sizes the buttons allow. *)
Definition widths_bounded (s : Session) : Prop :=
  1 <= brushSize (hooks s) <= 30
  /\ 1 <= lineWidth (ctx s) <= 30
  /\ Forall (fun d => match onload d with
                      | PreviewOnLoad _ _ b _ _ _ _ => 1 <= b <= 30
                      | _ => True
                      end) (pending s).

End Gestures.

(** * Properties *)

(** ** Decimal printing and [parseInt] *)

Example parseInt_hex : JS.parseInt " -0x1f" = Some (-31).
Proof. reflexivity. Qed.

Example parseInt_nan : JS.parseInt "layer" = None.
Proof. reflexivity. Qed.

Example parseInt_suffix : JS.parseInt "+12px" = Some 12.
Proof. reflexivity. Qed.

Example parseInt_wide_space :
  JS.parseInt (no_break_space +:+ em_space +:+ " " +:+ byte_order_mark
               +:+ "12") = Some 12.
Proof. vm_compute. done. Qed.

(** A character that merely starts like a white space is not skipped:
    U+00E0 is [C3 A0]. *)
Example parseInt_not_space :
  JS.parseInt (String (ascii_of_nat 195) (String (ascii_of_nat 160) "12"))
  = None.
Proof. vm_compute. done. Qed.

Example toString_next : JS.toString (JS.add1 (JS.parseInt "12")) = "13".
Proof. reflexivity. Qed.

Lemma digits_string_app ds d s :
  digits_string (ds ++ [d]) +:+ s = digits_string ds +:+ String (pretty_N_char d) s.
Proof.
  induction ds as [|e ds IH]; [done|].
  change (String (pretty_N_char e) (digits_string (ds ++ [d]) +:+ s)
          = String (pretty_N_char e) (digits_string ds +:+ String (pretty_N_char d) s)).
  by rewrite IH.
Qed.

Lemma string_app_nil_r (s : string) : s +:+ EmptyString = s.
Proof.
  induction s as [|c s IH]; [done|].
  change (String c (s +:+ EmptyString) = String c s). by rewrite IH.
Qed.

Lemma N_digits_value_snoc ds d :
  N_digits_value (ds ++ [d]) = (N_digits_value ds * 10 + d)%N.
Proof. unfold N_digits_value. by rewrite fold_left_app. Qed.

Lemma pretty_N_go_digits (x : N) :
  (0 < x)%N ->
  exists d ds, (0 < d)%N /\ Forall (fun e => e < 10)%N (d :: ds)
    /\ N_digits_value (d :: ds) = x
    /\ forall s, pretty_N_go x s = digits_string (d :: ds) +:+ s.
Proof.
  induction (N.lt_wf_0 x) as [x _ IH]; intros Hx.
  destruct (decide (x < 10)%N) as [Hlt|Hge].
  - exists x, []. repeat split; [done|by repeat constructor|].
    intros s. rewrite pretty_N_go_step by done.
    rewrite N.div_small, N.mod_small by done. by rewrite pretty_N_go_0.
  - destruct (IH (x `div` 10)%N) as (d & ds & Hd & Hall & Hval & Hstr).
    { apply N.div_lt; lia. }
    { apply N.div_str_pos; lia. }
    exists d, (ds ++ [x `mod` 10])%N. repeat split; [done|..].
    + rewrite app_comm_cons. apply Forall_app. split; [done|].
      repeat constructor. by apply N.mod_lt.
    + rewrite app_comm_cons, N_digits_value_snoc, Hval.
      pose proof (N.div_mod x 10). lia.
    + intros s. rewrite pretty_N_go_step by done.
      rewrite Hstr. by rewrite app_comm_cons, digits_string_app.
Qed.

Lemma digit_val_pretty_N_char d :
  (d < 10)%N -> JS.digit_val 10 (pretty_N_char d) = Some (Z.of_N d).
Proof.
  intros H.
  assert (d = 0 \/ d = 1 \/ d = 2 \/ d = 3 \/ d = 4 \/ d = 5 \/ d = 6
          \/ d = 7 \/ d = 8 \/ d = 9)%N as Hd by lia.
  by repeat (destruct Hd as [->|Hd]); subst.
Qed.

Lemma leading_digits_digits_string ds :
  Forall (fun e => e < 10)%N ds ->
  JS.leading_digits 10 (digits_string ds) = map Z.of_N ds.
Proof.
  induction 1 as [|d ds Hd _ IH]; simpl; [done|].
  by rewrite digit_val_pretty_N_char, IH.
Qed.

Lemma digits_value_of_N ds acc :
  fold_left (fun a d => a * 10 + d) (map Z.of_N ds) (Z.of_N acc)
  = Z.of_N (fold_left (fun a d => a * 10 + d)%N ds acc).
Proof.
  revert acc. induction ds as [|d ds IH]; intros acc; simpl; [done|].
  rewrite <- IH. f_equal. lia.
Qed.


Lemma strip_radix_plain c r :
  c <> "0"%char -> JS.strip_radix (String c r) = (10, String c r).
Proof.
  intros H0%Ascii.eqb_neq. unfold JS.strip_radix.
  destruct r as [|b r]; [done|]. by rewrite H0.
Qed.

Lemma trim_start_plain c r :
  JS.is_white c = false -> JS.code c < 194 ->
  JS.trim_start (String c r) = String c r.
Proof.
  intros Hw Hc. simpl. rewrite Hw.
  destruct r as [|b r2]; [done|].
  unfold JS.is_white2. rewrite (proj2 (Z.eqb_neq _ _)) by lia. simpl.
  destruct r2 as [|d r3]; [done|].
  unfold JS.is_white3. cbv zeta.
  by rewrite !(proj2 (Z.eqb_neq (JS.code c) _)) by lia.
Qed.

Lemma parseInt_plain c r :
  JS.is_white c = false -> JS.code c < 194 ->
  c <> "-"%char -> c <> "+"%char -> c <> "0"%char ->
  JS.parseInt (String c r) =
    match JS.leading_digits 10 (String c r) with
    | [] => None
    | ds => Some (1 * JS.digits_value 10 ds)
    end.
Proof.
  intros Hw Hc Hm%Ascii.eqb_neq Hp%Ascii.eqb_neq H0. unfold JS.parseInt.
  rewrite trim_start_plain by done. unfold JS.strip_sign. rewrite Hm, Hp.
  cbv beta iota zeta. by rewrite strip_radix_plain.
Qed.

Lemma parseInt_minus c r :
  c <> "0"%char ->
  JS.parseInt (String "-" (String c r)) =
    match JS.leading_digits 10 (String c r) with
    | [] => None
    | ds => Some (-1 * JS.digits_value 10 ds)
    end.
Proof.
  intros H0. unfold JS.parseInt.
  rewrite (trim_start_plain "-") by reflexivity.
  change (JS.strip_sign (String "-" (String c r))) with (-1, String c r).
  cbv beta iota zeta. by rewrite strip_radix_plain.
Qed.

Lemma pretty_N_char_plain d :
  (0 < d < 10)%N ->
  let c := pretty_N_char d in
  JS.is_white c = false /\ JS.code c < 194
  /\ c <> "-"%char /\ c <> "+"%char /\ c <> "0"%char.
Proof.
  intros H.
  assert (d = 1 \/ d = 2 \/ d = 3 \/ d = 4 \/ d = 5 \/ d = 6
          \/ d = 7 \/ d = 8 \/ d = 9)%N as Hd by lia.
  by repeat (destruct Hd as [->|Hd]); subst.
Qed.

Lemma parseInt_pretty_pos (p : positive) :
  JS.parseInt (pretty (N.pos p)) = Some (Z.pos p)
  /\ JS.parseInt ("-" +:+ pretty (N.pos p)) = Some (Z.neg p).
Proof.
  destruct (pretty_N_go_digits (N.pos p)) as (d & ds & Hd & Hall & Hval & Hstr);
    [lia|].
  assert (pretty (N.pos p) = String (pretty_N_char d) (digits_string ds)) as ->.
  { unfold pretty, pretty_N. rewrite decide_False by done.
    by rewrite Hstr, string_app_nil_r. }
  pose proof (leading_digits_digits_string _ Hall) as Hlead.
  pose proof (digits_value_of_N (d :: ds) 0) as Hdv.
  inversion Hall as [|? ? Hd10 Hds]; subst.
  destruct (pretty_N_char_plain d) as (Hw & Hc & Hm & Hp & H0); [lia|].
  change (digits_string (d :: ds))
    with (String (pretty_N_char d) (digits_string ds)) in Hlead.
  change ("-" +:+ String (pretty_N_char d) (digits_string ds))
    with (String "-" (String (pretty_N_char d) (digits_string ds))).
  rewrite parseInt_plain, parseInt_minus by done.
  rewrite Hlead.
  change (Z.of_N 0) with 0 in Hdv.
  change (map Z.of_N (d :: ds)) with (Z.of_N d :: map Z.of_N ds) in *.
  cbv iota. unfold JS.digits_value. rewrite Hdv. fold (N_digits_value (d :: ds)). rewrite Hval.
  split; f_equal; lia.
Qed.

(** Reading back the decimal form of an integer gives the integer. *)
Lemma parseInt_pretty (z : Z) : JS.parseInt (pretty z) = Some z.
Proof.
  destruct z as [|p|p]; [done|..]; apply parseInt_pretty_pos.
Qed.

(** ** Effects and single steps *)

Section Steps.
Context {api : CanvasAPI}.

Lemma run_app (es1 es2 : list Event) (s : Session) :
  run (es1 ++ es2) s = run es2 (run es1 s).
Proof. unfold run. apply fold_left_app. Qed.

Lemma run_cons (e : Event) (es : list Event) (s : Session) :
  run (e :: es) s = run es (step e s).
Proof. reflexivity. Qed.

(** No effect runs when the handler left its dependencies alone. *)
Lemma run_effects_same (old : Hooks) (s : Session) :
  color old = color (hooks s) -> brushSize old = brushSize (hooks s) ->
  tool old = tool (hooks s) -> isDrawing old = isDrawing (hooks s) ->
  run_effects old s = s.
Proof.
  intros Hc Hb Ht Hd. unfold run_effects.
  rewrite decide_True by done. by rewrite decide_True.
Qed.

Lemma slice0_take {A} (n : Z) (l : list A) :
  0 <= n -> JS.slice0 n l = take (Z.to_nat n) l.
Proof.
  intros Hn. unfold JS.slice0.
  destruct (n <? 0) eqn:E; [|done]. apply Z.ltb_lt in E. lia.
Qed.

(** The commit of the source: what the effect on [isDrawing] does to the
    history when the action has ended. *)
Lemma commit_effect_history (s : Session) :
  isDrawing (hooks s) = false ->
  let h := hooks s in
  let h' := hooks (commit_effect s) in
  history h' =
    (if currentStep h <? Z.of_nat (length (history h)) - 1
     then JS.slice0 (currentStep h + 1) (history h) else history h)
    ++ [toDataURL (canvas s)]
  /\ currentStep h' = currentStep h + 1
  /\ isDrawing h' = false
  /\ layers h' = set_layer_data (activeLayer h) (toDataURL (canvas s)) (layers h)
  /\ activeLayer h' = activeLayer h.
Proof.
  intros Hd. unfold commit_effect. rewrite Hd. simpl.
  destruct (currentStep (hooks s) <? _); simpl; done.
Qed.

(** A commit after [k] undos: the entries after the cursor are dropped,
    the snapshot is appended, and the cursor is the new last index. *)
Lemma commit_effect_truncates (s : Session) :
  isDrawing (hooks s) = false ->
  -1 <= currentStep (hooks s) < Z.of_nat (length (history (hooks s))) ->
  let h := hooks s in
  let h' := hooks (commit_effect s) in
  history h' = take (Z.to_nat (currentStep h + 1)) (history h)
                 ++ [toDataURL (canvas s)]
  /\ currentStep h' = Z.of_nat (length (history h')) - 1.
Proof.
  intros Hd Hc h h'.
  destruct (commit_effect_history s Hd) as (Hh & Hs & _).
  fold h h' in Hh, Hs.
  assert (history h' = take (Z.to_nat (currentStep h + 1)) (history h)
                         ++ [toDataURL (canvas s)]) as Heq.
  { rewrite Hh. f_equal.
    destruct (currentStep h <? _) eqn:E.
    - apply slice0_take. subst h. lia.
    - apply Z.ltb_ge in E. rewrite take_ge; [done|]. subst h. lia. }
  split; [done|].
  rewrite Heq, Hs, length_app, length_take. simpl. subst h. lia.
Qed.

(** [clear()] appends without looking at the cursor. *)
Lemma clearCanvas_history (s : Session) :
  let h := hooks s in
  let h' := hooks (step Clear s) in
  history h' = history h ++ [toDataURL blank]
  /\ currentStep h' = currentStep h + 1
  /\ isDrawing h' = isDrawing h.
Proof.
  unfold step, handle, clearCanvas. rewrite run_effects_same; done.
Qed.

(** What a step does to the history, by kind of event. *)
Lemma step_neutral (e : Event) (s : Session) :
  history_neutral e = true ->
  let h := hooks s in
  let h' := hooks (step e s) in
  history h' = history h /\ currentStep h' = currentStep h
  /\ isDrawing h' = isDrawing h.
Proof.
  intros He. unfold step, run_effects.
  assert (history (hooks (handle e s)) = history (hooks s)
          /\ currentStep (hooks (handle e s)) = currentStep (hooks s)
          /\ isDrawing (hooks (handle e s)) = isDrawing (hooks s))
    as (Hh & Hc & Hd).
  { destruct e; try discriminate He; simpl; try done.
    all: unfold draw, switchLayer, image_loaded, on_load; cbv zeta.
    all: repeat case_match; simpl; done. }
  rewrite (decide_True (P := isDrawing _ = isDrawing _)) by done.
  case_decide; simpl; done.
Qed.

Lemma step_pointer_down (x y : Z) (s : Session) :
  let h := hooks s in
  let h' := hooks (step (PointerDown x y) s) in
  history h' = history h /\ currentStep h' = currentStep h
  /\ isDrawing h' = true.
Proof.
  unfold step, run_effects, handle, startDrawing, commit_effect.
  repeat case_decide; simpl; done.
Qed.

Lemma step_pointer_up (s : Session) :
  isDrawing (hooks s) = true ->
  -1 <= currentStep (hooks s) < Z.of_nat (length (history (hooks s))) ->
  let h := hooks s in
  let h' := hooks (step PointerUp s) in
  history h' = take (Z.to_nat (currentStep h + 1)) (history h)
                 ++ [toDataURL (canvas s)]
  /\ currentStep h' = Z.of_nat (length (history h')) - 1
  /\ isDrawing h' = false.
Proof.
  intros Hd Hc. unfold step, run_effects, handle, stopDrawing.
  rewrite Hd. simpl. rewrite decide_True by done.
  match goal with |- context [commit_effect ?t] => set (s1 := t) end.
  destruct (commit_effect_truncates s1 eq_refl Hc) as (H1 & H2).
  destruct (commit_effect_history s1 eq_refl) as (_ & _ & H3 & _).
  done.
Qed.

End Steps.

(** ** The history stack *)

Section HistoryStack.
Context {api : CanvasAPI}.

Lemma run_neutral (es : list Event) (s : Session) :
  forallb history_neutral es = true ->
  let h := hooks s in
  let h' := hooks (run es s) in
  history h' = history h /\ currentStep h' = currentStep h
  /\ isDrawing h' = isDrawing h.
Proof.
  revert s. induction es as [|e es IH]; intros s Hes; [done|].
  apply andb_prop in Hes as [He Hes]. rewrite run_cons.
  destruct (step_neutral e s He) as (H1 & H2 & H3).
  destruct (IH (step e s) Hes) as (H4 & H5 & H6).
  cbv zeta. by rewrite H4, H5, H6.
Qed.

(** One completed draw action at the tip of the history appends exactly
    one entry and leaves the cursor on it. *)
Lemma action_appends_one (a : DrawAction) (s : Session) :
  plain_action a ->
  isDrawing (hooks s) = false ->
  currentStep (hooks s) = Z.of_nat (length (history (hooks s))) - 1 ->
  let s' := run (action_events a) s in
  isDrawing (hooks s') = false
  /\ length (history (hooks s')) = S (length (history (hooks s)))
  /\ currentStep (hooks s') = Z.of_nat (length (history (hooks s'))) - 1.
Proof.
  intros [Hb Hd] Hidle Htip. unfold action_events.
  rewrite !run_app, !run_cons. simpl run.
  set (s1 := run (before a) s).
  destruct (run_neutral (before a) s Hb) as (A1 & A2 & A3). fold s1 in A1, A2, A3.
  set (s2 := step (PointerDown _ _) s1).
  destruct (step_pointer_down (anchor a).1 (anchor a).2 s1) as (B1 & B2 & B3).
  fold s2 in B1, B2, B3.
  set (s3 := run (during a) s2).
  destruct (run_neutral (during a) s2 Hd) as (C1 & C2 & C3). fold s3 in C1, C2, C3.
  assert (history (hooks s3) = history (hooks s)) as Hh by congruence.
  assert (currentStep (hooks s3) = currentStep (hooks s)) as Hc by congruence.
  destruct (step_pointer_up s3) as (D1 & D2 & D3).
  { congruence. }
  { rewrite Hh, Hc. lia. }
  cbv zeta in D1, D2. repeat split; [done| |done].
  rewrite D1, length_app, length_take, Hh, Hc. simpl. lia.
Qed.

Lemma actions_append (acts : list DrawAction) (s : Session) :
  Forall plain_action acts ->
  isDrawing (hooks s) = false ->
  currentStep (hooks s) = Z.of_nat (length (history (hooks s))) - 1 ->
  let s' := run (concat (map action_events acts)) s in
  isDrawing (hooks s') = false
  /\ length (history (hooks s')) = (length (history (hooks s)) + length acts)%nat
  /\ currentStep (hooks s') = Z.of_nat (length (history (hooks s'))) - 1.
Proof.
  intros Hall. revert s.
  induction Hall as [|a acts Ha _ IH]; intros s Hidle Htip.
  - simpl. repeat split; [done|lia|done].
  - simpl concat. rewrite run_app.
    destruct (action_appends_one a s Ha Hidle Htip) as (E1 & E2 & E3).
    destruct (IH _ E1 E3) as (F1 & F2 & F3).
    cbv zeta. repeat split; [done| |done].
    rewrite F2, E2. simpl. lia.
Qed.

(** The component commits once when it mounts: a fresh session already
    holds the snapshot of the empty canvas, with the cursor on it. *)
Lemma mount_history :
  history (hooks mount) = [toDataURL blank]
  /\ currentStep (hooks mount) = 0
  /\ isDrawing (hooks mount) = false.
Proof. done. Qed.

(** C2, as the code has it.  After [N] completed draw actions on a fresh
    session, with no clear, undo or redo in between, the history holds
    [N + 1] entries (the snapshot taken at mount and one per action) and
    the cursor is [N]. *)
Theorem draw_actions_history_length (acts : list DrawAction) :
  Forall plain_action acts ->
  let s := run (concat (map action_events acts)) mount in
  length (history (hooks s)) = S (length acts)
  /\ currentStep (hooks s) = Z.of_nat (length acts).
Proof.
  intros Hall.
  destruct (actions_append acts mount Hall) as (_ & H1 & H2); [done..|].
  cbv zeta in *. rewrite H2, H1. simpl. split; [done|lia].
Qed.

End HistoryStack.

(** ** Undo, redo and the replay of a history entry *)

Section Replay.
Context {api : CanvasAPI}.

Lemma settle_idle (s : Session) : pending s = [] -> settle s = s.
Proof. intros H. unfold settle. by rewrite H. Qed.

Lemma step_image_loaded (s : Session) :
  step ImageLoaded s = image_loaded s.
Proof.
  unfold step, handle. apply run_effects_same;
    unfold image_loaded, on_load; repeat case_match; done.
Qed.

Lemma settle_one (d : Decode) (s : Session) :
  pending s = [d] -> settle s = image_loaded s.
Proof.
  intros H. unfold settle. rewrite H. simpl. unfold run. simpl.
  apply step_image_loaded.
Qed.

Lemma drawFromHistory_settled (n : Z) (s : Session) :
  pending s = [] -> settle (drawFromHistory n s) = replayed n s.
Proof.
  intros Hp. destruct s as [h cv c p]. simpl in Hp. subst p.
  unfold drawFromHistory, replayed. simpl.
  destruct (JS.index (history h) n) as [e|]; [|by apply settle_idle].
  case_decide; [by apply settle_idle|].
  erewrite settle_one by done.
  unfold image_loaded. simpl. by destruct (loadImage e).
Qed.

Lemma step_undo (s : Session) : step Undo s = undo s.
Proof.
  unfold step, handle. apply run_effects_same;
    unfold undo, drawFromHistory; repeat case_match; done.
Qed.

Lemma step_redo (s : Session) : step Redo s = redo s.
Proof.
  unfold step, handle. apply run_effects_same;
    unfold redo, drawFromHistory; repeat case_match; done.
Qed.

Lemma perform_undo (s : Session) :
  pending s = [] -> 0 < currentStep (hooks s) ->
  perform Undo s
  = replayed (currentStep (hooks s) - 1)
      (with_hooks (setCurrentStep (currentStep (hooks s) - 1) (hooks s)) s).
Proof.
  intros Hp Hc. unfold perform. rewrite step_undo. unfold undo.
  apply Z.ltb_lt in Hc. rewrite Hc. by apply drawFromHistory_settled.
Qed.

Lemma perform_redo (s : Session) :
  pending s = [] ->
  currentStep (hooks s) < Z.of_nat (length (history (hooks s))) - 1 ->
  perform Redo s
  = replayed (currentStep (hooks s) + 1)
      (with_hooks (setCurrentStep (currentStep (hooks s) + 1) (hooks s)) s).
Proof.
  intros Hp Hc. unfold perform. rewrite step_redo. unfold redo.
  apply Z.ltb_lt in Hc. rewrite Hc. by apply drawFromHistory_settled.
Qed.

Lemma replayed_hooks (n : Z) (s : Session) :
  let s' := replayed n s in
  currentStep (hooks s') = currentStep (hooks s)
  /\ history (hooks s') = history (hooks s)
  /\ activeLayer (hooks s') = activeLayer (hooks s)
  /\ pending s' = pending s.
Proof. unfold replayed. repeat case_match; done. Qed.

Lemma replayed_loaded (n : Z) (s : Session) (e : string) (img : Pixels) :
  JS.index (history (hooks s)) n = Some e -> e <> EmptyString ->
  loadImage e = Some img ->
  canvas (replayed n s) = drawImage img blank
  /\ layers (hooks (replayed n s))
     = set_layer_data (activeLayer (hooks s)) e (layers (hooks s)).
Proof.
  intros He Hne Himg. unfold replayed. rewrite He.
  rewrite decide_False by done. by rewrite Himg.
Qed.


Lemma image_loaded_pending (s : Session) :
  pending (step ImageLoaded s) = tail (pending s).
Proof.
  rewrite step_image_loaded. unfold image_loaded, on_load.
  repeat case_match; simpl in *; congruence.
Qed.

Lemma set_layer_data_shape (a d : string) (ls : list Layer) :
  map layer_shape (set_layer_data a d ls) = map layer_shape ls.
Proof.
  unfold set_layer_data. rewrite map_map. apply map_ext.
  intros l. by case_decide.
Qed.

Lemma image_loaded_frame (s : Session) :
  let s' := step ImageLoaded s in
  history (hooks s') = history (hooks s)
  /\ currentStep (hooks s') = currentStep (hooks s)
  /\ activeLayer (hooks s') = activeLayer (hooks s)
  /\ map layer_shape (layers (hooks s')) = map layer_shape (layers (hooks s)).
Proof.
  cbv zeta. rewrite step_image_loaded. unfold image_loaded.
  destruct (pending s) as [|d rest]; [done|].
  destruct (loadImage (src d)) as [img|]; [|done].
  destruct (onload d); simpl; try done.
  by rewrite set_layer_data_shape.
Qed.

Lemma loads_frame (n : nat) (s : Session) :
  let s' := run (replicate n ImageLoaded) s in
  pending s' = drop n (pending s)
  /\ history (hooks s') = history (hooks s)
  /\ currentStep (hooks s') = currentStep (hooks s)
  /\ activeLayer (hooks s') = activeLayer (hooks s)
  /\ map layer_shape (layers (hooks s')) = map layer_shape (layers (hooks s)).
Proof.
  revert s. induction n as [|n IH]; intros s; [done|].
  cbv zeta. simpl replicate. rewrite run_cons.
  destruct (IH (step ImageLoaded s)) as (H1 & H2 & H3 & H4 & H5).
  destruct (image_loaded_frame s) as (G2 & G3 & G4 & G5).
  rewrite H1, H2, H3, H4, H5, image_loaded_pending, G2, G3, G4, G5.
  repeat split. destruct (pending s); [by destruct n|done].
Qed.

Lemma settle_frame (s : Session) :
  pending (settle s) = []
  /\ history (hooks (settle s)) = history (hooks s)
  /\ currentStep (hooks (settle s)) = currentStep (hooks s)
  /\ activeLayer (hooks (settle s)) = activeLayer (hooks s)
  /\ map layer_shape (layers (hooks (settle s)))
     = map layer_shape (layers (hooks s)).
Proof.
  unfold settle.
  destruct (loads_frame (length (pending s)) s) as (H1 & H2).
  split; [|done]. by rewrite H1, drop_all.
Qed.

(** The decode a replay starts is the last to complete. *)
Lemma settle_request (d : Decode) (s : Session) :
  settle (request d s)
  = step ImageLoaded
      (run (replicate (length (pending s)) ImageLoaded) (request d s)).
Proof.
  unfold settle. simpl pending. rewrite length_app. simpl length.
  rewrite replicate_add, run_app. done.
Qed.

Lemma written_layers (a e : string) (quiet : Prop) (ls ls2 : list Layer) :
  map layer_shape ls2 = map layer_shape ls ->
  (quiet -> ls2 = ls) ->
  Forall2 (fun l l' =>
             id l' = id l /\ name l' = name l /\ visible l' = visible l
             /\ (id l = a -> data l' = e)
             /\ (quiet -> id l <> a -> data l' = data l))
    ls (set_layer_data a e ls2).
Proof.
  revert ls2. induction ls as [|l ls IH]; intros [|l2 ls2] Hs Hq;
    try done; simpl in *; [by constructor..|].
  injection Hs as H1 H2 H3 Hs.
  constructor.
  - case_decide as Hd; simpl.
    + repeat split; try done. intros Hquiet Hne. congruence.
    + repeat split; try done; [congruence|].
      intros Hquiet _. specialize (Hq Hquiet). congruence.
  - apply IH; [done|]. intros Hquiet. specialize (Hq Hquiet). congruence.
Qed.

Lemma drawFromHistory_outcome (n : Z) (s : Session) :
  currentStep (hooks s) = n ->
  replay_outcome n s (settle (drawFromHistory n s)).
Proof.
  intros Hn. unfold replay_outcome. cbv zeta.
  destruct (settle_frame (drawFromHistory n s)) as (_ & H2 & H3 & _).
  assert (hooks (drawFromHistory n s) = hooks s) as Hh.
  { unfold drawFromHistory. cbv zeta. by repeat case_match. }
  rewrite H2, H3, Hh. do 2 (split; [done|]).
  intros e img He Hne Himg.
  unfold drawFromHistory. cbv zeta. rewrite He.
  rewrite decide_False by done. rewrite settle_request.
  set (d := mkDecode e (ReplayOnLoad (activeLayer (hooks s)) e)).
  set (s1 := request d (with_canvas blank s)).
  destruct (loads_frame (length (pending (with_canvas blank s))) s1)
    as (L1 & _ & _ & _ & L5).
  remember (run (replicate (length (pending (with_canvas blank s)))
                   ImageLoaded) s1) as s2 eqn:Hs2.
  assert (pending s2 = [d]) as Hp2.
  { rewrite L1. unfold s1. simpl. by rewrite drop_app_length. }
  rewrite step_image_loaded. unfold image_loaded. rewrite Hp2.
  simpl src. rewrite Himg. simpl.
  split.
  - exists (canvas s2). split; [done|]. intros Hq.
    rewrite Hs2. simpl. by rewrite Hq.
  - apply written_layers; [done|]. intros Hq.
    rewrite Hs2. simpl. by rewrite Hq.
Qed.

(** C3.  [undo()] changes nothing when the cursor is at most 0.  Otherwise
    it moves the cursor back by exactly one, keeps the history and clears
    the canvas at once; and once the decodes have completed, if the entry
    under the new cursor is a non-empty string that loads, its image has
    been drawn on the canvas (on the cleared canvas when no other decode
    was in flight) and the layers with the active id hold that entry as
    their raster, every layer keeping its id, name and visibility (and
    the other layers their raster, when no other decode was in flight).
    [redo()] changes nothing when the cursor is on the last entry or
    beyond, and otherwise does the same one step forward. *)
Theorem undo_redo_boundaries (s : Session) :
  let h := hooks s in
  let last_index := Z.of_nat (length (history h)) - 1 in
  (currentStep h <= 0 -> step Undo s = s)
  /\ (last_index <= currentStep h -> step Redo s = s)
  /\ (0 < currentStep h ->
      currentStep (hooks (step Undo s)) = currentStep h - 1
      /\ history (hooks (step Undo s)) = history h
      /\ canvas (step Undo s) = blank
      /\ replay_outcome (currentStep h - 1) s (perform Undo s))
  /\ (currentStep h < last_index ->
      currentStep (hooks (step Redo s)) = currentStep h + 1
      /\ history (hooks (step Redo s)) = history h
      /\ canvas (step Redo s) = blank
      /\ replay_outcome (currentStep h + 1) s (perform Redo s)).
Proof.
  intros h last_index. subst h last_index.
  split; [|split; [|split]].
  - intros Hc. rewrite step_undo. unfold undo.
    by rewrite (proj2 (Z.ltb_ge _ _) Hc).
  - intros Hc. rewrite step_redo. unfold redo.
    by rewrite (proj2 (Z.ltb_ge _ _) Hc).
  - intros Hc. unfold perform. rewrite step_undo. unfold undo.
    rewrite (proj2 (Z.ltb_lt _ _) Hc).
    set (s1 := with_hooks _ s).
    pose proof (drawFromHistory_outcome (currentStep (hooks s) - 1) s1 eq_refl)
      as Hout.
    split; [|split; [|split]]; [| | |exact Hout];
      unfold drawFromHistory; cbv zeta; by repeat case_match.
  - intros Hc. unfold perform. rewrite step_redo. unfold redo.
    rewrite (proj2 (Z.ltb_lt _ _) Hc).
    set (s1 := with_hooks _ s).
    pose proof (drawFromHistory_outcome (currentStep (hooks s) + 1) s1 eq_refl)
      as Hout.
    split; [|split; [|split]]; [| | |exact Hout];
      unfold drawFromHistory; cbv zeta; by repeat case_match.
Qed.

Lemma index_lt {A} (l : list A) (n : Z) (x : A) :
  JS.index l n = Some x -> 0 <= n < Z.of_nat (length l).
Proof.
  unfold JS.index. destruct (n <? 0) eqn:E; [done|].
  apply Z.ltb_ge in E. intros H%lookup_lt_Some. lia.
Qed.

(** C4, as the code has it.  With a codec that loses nothing and every
    decode completing before the next operation: when the cursor is
    positive and the canvas shows the entry under the cursor, [undo()]
    followed by [redo()] gives back the same pixels and the same cursor.
    (After a layer switch the canvas shows another layer's raster and this
    premise fails.) *)
Theorem undo_redo_restores_displayed_entry `{!Lossless api} (s : Session) :
  pending s = [] ->
  0 < currentStep (hooks s) ->
  JS.index (history (hooks s)) (currentStep (hooks s))
    = Some (toDataURL (canvas s)) ->
  let s' := perform Redo (perform Undo s) in
  canvas s' = canvas s /\ currentStep (hooks s') = currentStep (hooks s).
Proof.
  intros Hp Hc Hshown.
  pose proof (index_lt _ _ _ Hshown) as Hlt.
  rewrite (perform_undo s) by done.
  set (s0 := with_hooks _ s).
  destruct (replayed_hooks (currentStep (hooks s) - 1) s0)
    as (U1 & U2 & U3 & U4).
  set (s1 := replayed _ s0) in *. simpl in U1, U2, U4.
  rewrite (perform_redo s1) by (rewrite ?U1, ?U2, ?U4; first [done|lia]).
  set (s2 := with_hooks _ s1).
  destruct (replayed_hooks (currentStep (hooks s1) + 1) s2) as (R1 & _).
  cbv zeta in R1. cbv zeta. split.
  - edestruct (replayed_loaded (currentStep (hooks s1) + 1) s2) as [-> _].
    + simpl. rewrite U1, U2.
      replace (currentStep (hooks s) - 1 + 1) with (currentStep (hooks s)) by lia.
      exact Hshown.
    + apply toDataURL_nonempty.
    + apply load_toDataURL.
    + apply drawImage_blank.
  - rewrite R1. simpl. rewrite U1. lia.
Qed.

Lemma step_switch (i : string) (s : Session) :
  step (SwitchLayer i) s = switchLayer i s.
Proof.
  unfold step, handle. apply run_effects_same;
    unfold switchLayer; repeat case_match; done.
Qed.

Lemma step_move (x y : Z) (s : Session) :
  step (PointerMove x y) s = draw x y s.
Proof.
  unfold step, handle. apply run_effects_same;
    unfold draw; repeat case_match; done.
Qed.


(** C7.  During a shape preview, once the active layer's raster has been
    decoded and drawn on the cleared canvas, the rectangle tool strokes
    the axis-aligned rectangle whose opposite corners are the anchor and
    the pointer, and the circle tool strokes the circle centred on the
    anchor whose radius is the larger of [|dx|] and [|dy|]. *)
Theorem shape_preview_geometry (s : Session) (x y : Z) (l : Layer)
    (img : Pixels) :
  pending s = [] ->
  isDrawing (hooks s) = true ->
  find_layer (activeLayer (hooks s)) (layers (hooks s)) = Some l ->
  data l <> EmptyString ->
  loadImage (data l) = Some img ->
  let h := hooks s in
  let s' := perform (PointerMove x y) s in
  let restored := drawImage img blank in
  (tool h = rectangle ->
     canvas s' = stroke (color h) (brushSize h)
                   [PRect (startX h) (startY h) (x - startX h) (y - startY h)]
                   restored
     /\ rect_corners (startX h) (startY h) (x - startX h) (y - startY h)
        = ((startX h, startY h), (x, y)))
  /\ (tool h = circle ->
     canvas s' = stroke (color h) (brushSize h)
                   [PArc (startX h) (startY h)
                      (Z.max (Z.abs (x - startX h)) (Z.abs (y - startY h)))]
                   restored).
Proof.
  intros Hp Hd Hl Hne Himg h s' restored. subst h s' restored.
  unfold perform. rewrite step_move. unfold draw. rewrite Hd. simpl.
  split; intros Ht; rewrite Ht.
  all: rewrite decide_False by (intros [?|?]; congruence).
  all: rewrite Hl, decide_False by done.
  all: erewrite settle_one by (unfold request; simpl; by rewrite Hp).
  all: unfold image_loaded, request; simpl; rewrite Hp; simpl.
  all: rewrite Himg; simpl.
  - split; [done|]. unfold rect_corners. repeat f_equal; lia.
  - done.
Qed.

Example rectangle_preview_path :
  shape_path rectangle 10 10 50 30 = [PRect 10 10 40 20]
  /\ rect_corners 10 10 40 20 = ((10, 10), (50, 30)).
Proof. done. Qed.

Example circle_preview_path :
  shape_path circle 10 10 40 10 = [PArc 10 10 30].
Proof. done. Qed.

End Replay.

(** ** The layer store *)

Section LayerStore.
Context {api : CanvasAPI}.

Lemma set_layer_data_ids (a d : string) (ls : list Layer) :
  map id (set_layer_data a d ls) = map id ls.
Proof.
  unfold set_layer_data. rewrite map_map. apply map_ext.
  intros l. by case_decide.
Qed.

Lemma find_layer_set_layer_data (i a d : string) (ls : list Layer) :
  find_layer i (set_layer_data a d ls)
  = (fun l => if decide (id l = a)
              then mkLayer (id l) (name l) (visible l) d else l)
      <$> find_layer i ls.
Proof.
  unfold find_layer, set_layer_data.
  induction ls as [|l ls IH]; [done|]. simpl.
  assert (id (if decide (id l = a)
              then mkLayer (id l) (name l) (visible l) d else l) = id l)
    as -> by (by case_decide).
  by destruct (bool_decide (id l = i)).
Qed.

Lemma find_layer_id (i : string) (ls : list Layer) (l : Layer) :
  find_layer i ls = Some l -> id l = i.
Proof.
  unfold find_layer. intros H%find_some. destruct H as [_ H].
  by apply bool_decide_eq_true in H.
Qed.

(** The session [switchLayer i] leads to once its decode, if any, has
    completed. *)
Lemma perform_switch (i : string) (s : Session) :
  pending s = [] ->
  let h := hooks s in
  let s' := perform (SwitchLayer i) s in
  activeLayer (hooks s') = i
  /\ layers (hooks s')
     = set_layer_data (activeLayer h) (toDataURL (canvas s)) (layers h)
  /\ pending s' = []
  /\ canvas s' =
       match find_layer i (layers h) with
       | Some l =>
           if decide (data l = EmptyString) then canvas s
           else match loadImage (data l) with
                | Some img => drawImage img blank
                | None => canvas s
                end
       | None => canvas s
       end.
Proof.
  intros Hp. cbv zeta. unfold perform. rewrite step_switch.
  unfold switchLayer.
  destruct (find_layer i _) as [l|]; [|by rewrite settle_idle].
  case_decide; [by rewrite settle_idle|].
  erewrite settle_one by (unfold request; simpl; by rewrite Hp).
  unfold image_loaded, request. simpl. rewrite Hp. simpl.
  by destruct (loadImage (data l)).
Qed.

(** With a codec that loses nothing, a raster the canvas produced
    survives being decoded, drawn on the cleared canvas and encoded
    again. *)
Lemma lossless_raster `{!Lossless api} (p : Pixels) :
  toDataURL p <> EmptyString
  /\ loadImage (toDataURL p) = Some p
  /\ toDataURL (drawImage p blank) = toDataURL p.
Proof.
  split; [apply toDataURL_nonempty|]. split; [apply load_toDataURL|].
  by rewrite drawImage_blank.
Qed.

(** C6, as the code has it.  When no decode is in flight, each switch's
    decode completes before the next switch, and the raster of layer [A]
    survives a round through the canvas (it is a non-empty string that
    loads, and the loaded image drawn on the cleared canvas encodes to the
    same raster: a lossless codec and a raster recorded at the dimensions
    the canvas has), then for every [B] other than [A], switching to [A],
    then to [B], then back to [A] leaves layer [A] exactly as it was
    before the first switch, with its image on the canvas, [A] active and
    no decode in flight. *)
Theorem switch_away_and_back (s : Session) (A B : string)
    (lA : Layer) (pA : Pixels) :
  pending s = [] ->
  A <> B ->
  find_layer A (layers (hooks s)) = Some lA ->
  data lA <> EmptyString ->
  loadImage (data lA) = Some pA ->
  toDataURL (drawImage pA blank) = data lA ->
  let s' := perform (SwitchLayer A)
              (perform (SwitchLayer B) (perform (SwitchLayer A) s)) in
  find_layer A (layers (hooks s')) = Some lA
  /\ canvas s' = drawImage pA blank
  /\ activeLayer (hooks s') = A
  /\ pending s' = [].
Proof.
  intros Hp HAB HlA Hne Hload Hback.
  pose proof (find_layer_id _ _ _ HlA) as HidA.
  destruct (perform_switch A s Hp) as (A1 & L1 & P1 & C1).
  cbv zeta in L1, C1 |- *.
  remember (perform (SwitchLayer A) s) as s1 eqn:E1. clear E1.
  rewrite HlA, decide_False, Hload in C1 by done.
  destruct (perform_switch B s1 P1) as (A2 & L2 & P2 & _).
  cbv zeta in L2.
  remember (perform (SwitchLayer B) s1) as s2 eqn:E2. clear E2.
  rewrite A1, C1, Hback in L2.
  assert (find_layer A (layers (hooks s2)) = Some lA) as HlA2.
  { rewrite L2, L1, !find_layer_set_layer_data, HlA. simpl.
    rewrite (decide_True (P := id _ = A)) by (by case_decide).
    destruct lA as [i n v d]. simpl in *. subst.
    by case_decide. }
  destruct (perform_switch A s2 P2) as (A3 & L3 & P3 & C3).
  cbv zeta in L3, C3. repeat split; [| |done|done].
  - rewrite L3, find_layer_set_layer_data, HlA2. simpl.
    rewrite decide_False; [done|]. rewrite A2. congruence.
  - rewrite C3, HlA2. rewrite decide_False by done. by rewrite Hload.
Qed.

Lemma step_addLayer (s : Session) : step AddLayer s = addLayer s.
Proof. unfold step, handle. by apply run_effects_same. Qed.

Lemma or_else_empty (s : string) : JS.or_else s EmptyString = s.
Proof. unfold JS.or_else. by case_decide. Qed.

Lemma or_else_nonempty (s d : string) : s <> EmptyString -> JS.or_else s d = s.
Proof. intros H. unfold JS.or_else. by rewrite decide_False. Qed.

Lemma pretty_Z_nonempty (z : Z) : pretty z <> EmptyString.
Proof. intros H. pose proof (parseInt_pretty z) as Hp. by rewrite H in Hp. Qed.

Lemma spec_highest_id_snoc (ls : list Layer) (l : Layer) (n : Z) :
  Forall (fun l' => forall m, JS.parseInt (id l') = Some m -> m <= n) ls ->
  JS.parseInt (id l) = Some n ->
  spec_highest_id (ls ++ [l]) = Some n.
Proof.
  intros Hall Hl. unfold spec_highest_id. rewrite fold_right_app. simpl.
  rewrite Hl.
  induction Hall as [|l' ls Hle _ IH]; [done|].
  simpl. rewrite IH. destruct (JS.parseInt (id l')) as [m|]; [|done].
  specialize (Hle m eq_refl). f_equal. lia.
Qed.

Lemma parseInt_nonempty (i : string) (n : Z) :
  JS.parseInt i = Some n -> i <> EmptyString.
Proof. by intros H ->. Qed.

(** C8, as the code has it.  [addLayer()] reads the id of the last layer
    of the store: when [parseInt] reads that id as the safe integer [n]
    (below [2^53] in absolute value, where the arithmetic of doubles is
    exact), the new layer has the decimal form of [n + 1] as its id, is
    named after it, is visible, holds the data URL of the canvas as
    displayed, comes last in the store and becomes the active layer.
    When no other id reads as a number above [n], this is the increment
    of the highest id. *)
Theorem addLayer_increments_last_id (s : Session) (ls : list Layer)
    (l : Layer) (n : Z) :
  layers (hooks s) = ls ++ [l] ->
  JS.parseInt (id l) = Some n ->
  JS.safe_integer n ->
  let s' := step AddLayer s in
  let newId := pretty (n + 1) in
  layers (hooks s')
  = layers (hooks s)
      ++ [mkLayer newId ("Layer " +:+ newId) true (toDataURL (canvas s))]
  /\ activeLayer (hooks s') = newId
  /\ (Forall (fun l' => forall m, JS.parseInt (id l') = Some m -> m <= n) ls ->
      spec_highest_id (layers (hooks s)) = Some n).
Proof.
  intros Hls Hl _. cbv zeta. rewrite step_addLayer. unfold addLayer.
  rewrite Hls, last_snoc.
  rewrite (or_else_nonempty (id l)) by (by eapply parseInt_nonempty).
  rewrite Hl, or_else_empty. simpl.
  split; [done|]. split; [done|].
  intros Hall. by apply spec_highest_id_snoc.
Qed.
(** *** The invariant of the store *)

Lemma next_id_inj : Inj (=) (=) next_id.
Proof.
  intros a b H. unfold next_id in H.
  apply (inj pretty) in H. lia.
Qed.

Lemma sequential_ids_NoDup (ls : list Layer) :
  sequential_ids ls -> NoDup (map id ls).
Proof.
  intros ->. change (NoDup (next_id <$> seq 1 (length ls))).
  apply NoDup_fmap_2; [apply next_id_inj|apply NoDup_seq].
Qed.

Lemma sequential_ids_last (ls : list Layer) (l : Layer) :
  sequential_ids (ls ++ [l]) -> id l = next_id (S (length ls)).
Proof.
  unfold sequential_ids. rewrite map_app, length_app. simpl.
  rewrite Nat.add_1_r, seq_S, map_app. simpl.
  intros H. apply app_inj_tail in H as [_ H]. exact H.
Qed.

Lemma sequential_ids_snoc (ls : list Layer) (l : Layer) :
  sequential_ids ls -> id l = next_id (S (length ls)) ->
  sequential_ids (ls ++ [l]).
Proof.
  unfold sequential_ids. intros H Hl.
  rewrite map_app, length_app. simpl.
  rewrite Nat.add_1_r, seq_S, map_app. simpl. by rewrite H, Hl.
Qed.

Lemma sequential_ids_ext (ls ls' : list Layer) :
  map id ls' = map id ls -> sequential_ids ls -> sequential_ids ls'.
Proof.
  unfold sequential_ids. intros H Hs.
  assert (length ls' = length ls) as ->.
  { by rewrite <- (length_map id ls'), H, length_map. }
  by rewrite H.
Qed.

Lemma filter_absent (ls : list Layer) (a : string) :
  ~ In a (map id ls) -> filter (fun l => id l = a) ls = [].
Proof.
  induction ls as [|l ls IH]; [done|]. simpl. intros Hnin.
  rewrite filter_cons_False by (intros H; apply Hnin; by left).
  apply IH. intros H. apply Hnin. by right.
Qed.

Lemma active_layer_unique (ls : list Layer) (a : string) :
  NoDup (map id ls) -> In a (map id ls) ->
  length (filter (fun l => id l = a) ls) = 1%nat.
Proof.
  induction ls as [|l ls IH]; [done|]. simpl.
  intros [Hnin Hnd]%NoDup_cons [Hl|Hin].
  - rewrite filter_cons_True by done. simpl. f_equal.
    rewrite filter_absent; [done|].
    intros H. apply Hnin. rewrite Hl. by apply list_elem_of_In.
  - rewrite filter_cons_False; [by apply IH|].
    intros Ha. apply Hnin. rewrite Ha. by apply list_elem_of_In.
Qed.

Lemma store_ok_invariant (s : Session) : store_ok s -> layer_invariant s.
Proof.
  intros (Hseq & _ & Hin). unfold layer_invariant. cbv zeta.
  pose proof (sequential_ids_NoDup _ Hseq) as Hnd.
  repeat split; [done..|]. by apply active_layer_unique.
Qed.

Lemma run_effects_store (old : Hooks) (s : Session) :
  map id (layers (hooks (run_effects old s))) = map id (layers (hooks s))
  /\ activeLayer (hooks (run_effects old s)) = activeLayer (hooks s).
Proof.
  unfold run_effects, commit_effect, style_effect.
  repeat case_decide; repeat case_match; simpl;
    by rewrite ?set_layer_data_ids.
Qed.

Lemma handle_store (e : Event) (s : Session) :
  e <> AddLayer ->
  map id (layers (hooks (handle e s))) = map id (layers (hooks s))
  /\ activeLayer (hooks (handle e s))
     = match e with
       | SwitchLayer i => i
       | _ => activeLayer (hooks s)
       end.
Proof.
  intros He. destruct e; try done; simpl.
  all: unfold startDrawing, draw, stopDrawing, undo, redo, drawFromHistory,
         clearCanvas, toggleLayerVisibility, switchLayer, image_loaded,
         on_load; cbv zeta.
  all: repeat case_match; simpl; rewrite ?set_layer_data_ids; try done.
  all: split; [|done]; rewrite map_map; apply map_ext; intros l;
         by case_decide.
Qed.

Lemma step_store_ok (e : Event) (s : Session) :
  store_ok s -> caller_ok e s -> store_ok (step e s).
Proof.
  intros (Hseq & Hne & Hin) Hok.
  assert (e = AddLayer \/ e <> AddLayer) as [->|He]
    by (destruct e; first [by left|by right]).
  - rewrite step_addLayer. unfold store_ok, addLayer. simpl.
    destruct (exists_last Hne) as (ls & l & Hls).
    rewrite Hls in Hseq |- *.
    pose proof (sequential_ids_last _ _ Hseq) as Hl.
    rewrite last_snoc, Hl. unfold next_id.
    rewrite (or_else_nonempty (pretty _)) by apply pretty_Z_nonempty.
    rewrite parseInt_pretty. simpl.
    repeat split.
    + apply sequential_ids_snoc; [done|]. simpl.
      unfold next_id. f_equal. rewrite length_app. simpl. lia.
    + by destruct ls.
    + rewrite !map_app. simpl. apply in_or_app. right. by left.
  - unfold step.
    destruct (run_effects_store (hooks s) (handle e s)) as [H1 H2].
    destruct (handle_store e s He) as [H3 H4].
    unfold store_ok. rewrite H2, H4. repeat split.
    + eapply sequential_ids_ext; [|exact Hseq]. by rewrite H1, H3.
    + intros Hnil. apply Hne.
      apply (f_equal (map id)) in Hnil. rewrite H1, H3 in Hnil.
      by destruct (layers (hooks s)).
    + rewrite H1, H3. by destruct e.
Qed.

(** C9, as the code has it.  In every session reached from the mounted
    component by exposed operations, [switchLayer] being called with ids
    of layers of the store as the layer list does, layer ids are unique,
    [activeLayer] is the id of a layer of the store, and exactly one
    layer carries it. *)
Theorem reachable_layer_invariant (s : Session) :
  reachable s -> layer_invariant s.
Proof.
  intros Hr. apply store_ok_invariant.
  induction Hr as [|s e _ IH Hok].
  - unfold store_ok. simpl. repeat split; [done|]. by left.
  - by apply step_store_ok.
Qed.

End LayerStore.

(** ** The tool state *)

Section ToolState.
Context {api : CanvasAPI}.

(** Switching to the eraser makes the stroke style white and keeps the
    stored colour; switching back to the brush restores that colour as
    the stroke style.  White is the canvas background of the light
    theme. *)
Lemma eraser_switch (s : Session) :
  tool (hooks s) <> eraser ->
  let s1 := step (SetTool eraser) s in
  let s2 := step (SetTool brush) s1 in
  strokeStyle (ctx s1) = "#ffffff"
  /\ strokeStyle (ctx s1) = canvas_background false
  /\ color (hooks s1) = color (hooks s)
  /\ strokeStyle (ctx s2) = color (hooks s).
Proof.
  intros Ht. unfold step, run_effects, handle. simpl.
  rewrite (decide_False (P := _ /\ _ /\ tool (hooks s) = eraser))
    by (by intros (_ & _ & ?)).
  rewrite (decide_True (P := isDrawing _ = isDrawing _)) by done.
  unfold style_effect. simpl.
  rewrite (decide_False (P := _ /\ _ /\ eraser = brush))
    by (by intros (_ & _ & ?)).
  by rewrite (decide_True (P := isDrawing _ = isDrawing _)).
Qed.

(** C10 at the failing input: in the dark theme the canvas background is
    gray-700, and switching to the eraser still sets the stroke style to
    white. *)
Theorem eraser_ignores_dark_theme :
  let s := run [ToggleDarkMode; SetTool eraser] mount in
  darkMode (hooks s) = true
  /\ tool (hooks s) = eraser
  /\ strokeStyle (ctx s) = "#ffffff"
  /\ canvas_background (darkMode (hooks s)) = "#374151"
  /\ strokeStyle (ctx s) <> canvas_background (darkMode (hooks s)).
Proof. done. Qed.

End ToolState.

(** ** Reachable sessions *)

Section Reachable.
Context {api : CanvasAPI}.

Lemma set_layer_data_encoded (a d : string) (ls : list Layer) :
  encoded d -> Forall (fun l => encoded (data l)) ls ->
  Forall (fun l => encoded (data l)) (set_layer_data a d ls).
Proof.
  intros Hd Hls. unfold set_layer_data. apply Forall_map.
  eapply Forall_impl; [exact Hls|]. intros l Hl. simpl.
  by case_decide.
Qed.

Lemma slice0_encoded (n : Z) (l : list string) :
  Forall encoded l -> Forall encoded (JS.slice0 n l).
Proof. intros H. unfold JS.slice0. case_match; by apply Forall_take. Qed.

Lemma index_encoded (n : Z) (l : list string) (e : string) :
  Forall encoded l -> JS.index l n = Some e -> encoded e.
Proof.
  intros H. unfold JS.index. case_match; [done|].
  intros He. eapply Forall_lookup_1; eauto.
Qed.

Lemma run_effects_rasters (old : Hooks) (s : Session) :
  rasters_encoded s -> rasters_encoded (run_effects old s).
Proof.
  intros (Hl & Hh & Hp).
  assert (encoded (toDataURL (canvas s))) as Hc by (by eexists).
  unfold run_effects, commit_effect, style_effect, rasters_encoded.
  repeat case_decide; repeat case_match; simpl; repeat split; try done.
  all: try (by apply set_layer_data_encoded).
  all: apply Forall_app; split; [|by repeat constructor].
  all: by (try apply slice0_encoded).
Qed.

Lemma handle_rasters (e : Event) (s : Session) :
  rasters_encoded s -> rasters_encoded (handle e s).
Proof.
  intros H. pose proof H as (Hl & Hh & Hp).
  assert (encoded (toDataURL (canvas s))) as Hc by (by eexists).
  assert (encoded (toDataURL blank)) as Hb by (by eexists).
  destruct e; simpl; try done.
  - unfold startDrawing. by case_decide.
  - unfold draw. repeat case_match; try done.
    split; [done|]. split; [done|]. simpl.
    apply Forall_app. split; [done|]. by repeat constructor.
  - unfold stopDrawing. by case_match.
  - unfold undo, drawFromHistory. simpl. repeat case_match; try done.
    split; [done|]. split; [done|]. simpl.
    apply Forall_app. split; [done|]. repeat constructor. simpl.
    by eapply index_encoded.
  - unfold redo, drawFromHistory. simpl. repeat case_match; try done.
    split; [done|]. split; [done|]. simpl.
    apply Forall_app. split; [done|]. repeat constructor. simpl.
    by eapply index_encoded.
  - unfold clearCanvas, rasters_encoded. simpl. repeat split; [|..|done].
    + by apply set_layer_data_encoded.
    + apply Forall_app. split; [done|]. by repeat constructor.
  - unfold addLayer, rasters_encoded. simpl. repeat split; [|done..].
    apply Forall_app. split; [done|]. repeat constructor. simpl.
    by rewrite or_else_empty.
  - unfold toggleLayerVisibility, rasters_encoded. simpl.
    repeat split; [|done..]. apply Forall_map.
    eapply Forall_impl; [exact Hl|]. intros l Hl'. simpl. by case_decide.
  - unfold switchLayer, rasters_encoded.
    repeat case_match; simpl; repeat split; try done.
    all: try (by apply set_layer_data_encoded).
    apply Forall_app. split; [done|]. by repeat constructor.
  - unfold image_loaded. destruct (pending s) as [|d rest] eqn:E; [done|].
    apply Forall_cons in Hp as [Hd Hrest].
    destruct (loadImage (src d)) as [img|]; [|done].
    unfold on_load. destruct (onload d); try done.
    unfold rasters_encoded. simpl. repeat split; [|done..].
    by apply set_layer_data_encoded.
Qed.

(** Every raster a reachable session stores, in a layer or in the history,
    is a data URL the canvas produced. *)
Lemma reachable_rasters_encoded (s : Session) :
  reachable s -> rasters_encoded s.
Proof.
  induction 1 as [|s e _ IH _].
  - unfold rasters_encoded. simpl.
    repeat split; repeat constructor; by eexists.
  - unfold step. by apply run_effects_rasters, handle_rasters.
Qed.

Lemma run_effects_cursor (old : Hooks) (s : Session) :
  0 <= currentStep (hooks s) < Z.of_nat (length (history (hooks s))) ->
  let s' := run_effects old s in
  0 <= currentStep (hooks s') < Z.of_nat (length (history (hooks s'))).
Proof.
  intros Hc. unfold run_effects.
  assert (forall t, hooks (style_effect t) = hooks t) as Hst by done.
  assert (forall t,
    0 <= currentStep (hooks t) < Z.of_nat (length (history (hooks t))) ->
    0 <= currentStep (hooks (commit_effect t))
      < Z.of_nat (length (history (hooks (commit_effect t))))) as Hcm.
  { intros t Ht. destruct (isDrawing (hooks t)) eqn:E.
    - unfold commit_effect. by rewrite E.
    - destruct (commit_effect_truncates t E) as [_ H2]; [lia|].
      destruct (commit_effect_history t E) as (_ & H1 & _).
      cbv zeta in *. lia. }
  cbv zeta. repeat case_decide; rewrite ?Hst; auto.
  all: apply Hcm; by rewrite ?Hst.
Qed.

Lemma handle_cursor (e : Event) (s : Session) :
  0 <= currentStep (hooks s) < Z.of_nat (length (history (hooks s))) ->
  let s' := handle e s in
  0 <= currentStep (hooks s') < Z.of_nat (length (history (hooks s'))).
Proof.
  intros Hc. destruct e; simpl; try done.
  all: unfold startDrawing, draw, stopDrawing, undo, redo, drawFromHistory,
         clearCanvas, switchLayer, image_loaded, on_load; cbv zeta.
  all: repeat case_match; simpl; try done.
  all: rewrite ?length_app; simpl; lia.
Qed.

(** In every reachable session the cursor is an index of the history. *)
Lemma reachable_history_invariant (s : Session) :
  reachable s ->
  0 <= currentStep (hooks s) < Z.of_nat (length (history (hooks s)))
  /\ history_invariant s.
Proof.
  intros Hr.
  assert (0 <= currentStep (hooks s)
          < Z.of_nat (length (history (hooks s)))) as Hc.
  { induction Hr as [|s e _ IH _]; [simpl; lia|].
    unfold step. by apply run_effects_cursor, handle_cursor. }
  split; [done|]. unfold history_invariant. cbv zeta.
  split; [lia|]. split.
  - intros Hnil. rewrite Hnil in Hc. simpl in Hc. lia.
  - lia.
Qed.

End Reachable.

(** ** Closed instances on the reference canvas *)

Global Instance faithful_lossless : Lossless faithful.
Proof. split; intros p; done. Qed.

(** C1 at the failing input.  After two strokes and one undo the cursor is
    1 in a history of 3 entries; [clear()] then appends its snapshot after
    the entry the undo left behind, and the cursor moves to that entry
    instead of the new last index. *)
Theorem clear_after_undo_keeps_forward_history :
  let s := run (api := faithful) two_strokes_undone mount in
  let s' := step Clear s in
  currentStep (hooks s) = 1
  /\ length (history (hooks s)) = 3%nat
  /\ history (hooks s') = history (hooks s) ++ [png_prefix]
  /\ currentStep (hooks s') = 2
  /\ Z.of_nat (length (history (hooks s'))) - 1 = 3.
Proof. vm_compute. done. Qed.

(** C2 fails as stated: after one completed stroke on a fresh session the
    history holds two entries and the cursor is 1. *)
Lemma one_stroke_two_entries :
  let s := run (api := faithful)
             [PointerDown 1 2; PointerMove 3 4; PointerUp] mount in
  ~ (length (history (hooks s)) = 1%nat /\ currentStep (hooks s) = 1 - 1).
Proof. vm_compute. intros [H _]. discriminate H. Qed.

Lemma draw_actions_history_length_witness :
  let acts := [mkAction [] (1, 2) [PointerMove 3 4];
               mkAction [SetTool rectangle] (10, 10)
                 [PointerMove 50 30; ImageLoaded]] in
  let s := run (api := faithful) (concat (map action_events acts)) mount in
  Forall plain_action acts
  /\ length (history (hooks s)) = 3%nat /\ currentStep (hooks s) = 2.
Proof.
  intros acts s.
  assert (Forall plain_action acts) as Hacts by (repeat constructor).
  split; [exact Hacts|].
  exact (draw_actions_history_length (api := faithful) acts Hacts).
Defined.

Lemma undo_redo_boundaries_witness :
  let s0 := mount (api := faithful) in
  let s2 := run (api := faithful) two_strokes mount in
  let s1 := run (api := faithful) two_strokes_undone mount in
  step Undo s0 = s0
  /\ step Redo s2 = s2
  /\ currentStep (hooks (step Undo s2)) = 1
  /\ canvas (perform Undo s2) = "[#000000 5 M1,2;L3,4;]"
  /\ layers (hooks (perform Undo s2))
     = [mkLayer "1" "Layer 1" true
          "data:image/png;base64,[#000000 5 M1,2;L3,4;]"]
  /\ currentStep (hooks (step Redo s1)) = 2
  /\ canvas (perform Redo s1)
     = "[#000000 5 M1,2;L3,4;][#000000 5 M5,6;L7,8;]"
  /\ layers (hooks (perform Redo s1))
     = [mkLayer "1" "Layer 1" true
          "data:image/png;base64,[#000000 5 M1,2;L3,4;][#000000 5 M5,6;L7,8;]"].
Proof.
  intros s0 s2 s1.
  destruct (undo_redo_boundaries s0) as (Hnoop & _).
  destruct (undo_redo_boundaries s2) as (_ & Hlast & Hundo & _).
  destruct (undo_redo_boundaries s1) as (_ & _ & _ & Hredo).
  split; [apply Hnoop; vm_compute; discriminate|].
  split; [apply Hlast; vm_compute; discriminate|].
  destruct Hundo as (Hu1 & _ & _ & _ & _ & Hu2); [vm_compute; reflexivity|].
  destruct Hredo as (Hr1 & _ & _ & _ & _ & Hr2); [vm_compute; reflexivity|].
  destruct (Hu2 "data:image/png;base64,[#000000 5 M1,2;L3,4;]"
                "[#000000 5 M1,2;L3,4;]")
    as ((under & Hcv & Hunder) & Hls);
    [vm_compute; reflexivity|discriminate|vm_compute; reflexivity|].
  destruct (Hr2 "data:image/png;base64,[#000000 5 M1,2;L3,4;][#000000 5 M5,6;L7,8;]"
                "[#000000 5 M1,2;L3,4;][#000000 5 M5,6;L7,8;]")
    as ((under' & Hcv' & Hunder') & Hls');
    [vm_compute; reflexivity|discriminate|vm_compute; reflexivity|].
  split; [exact Hu1|].
  split; [rewrite Hcv, Hunder by (vm_compute; reflexivity); vm_compute; reflexivity|].
  split.
  { remember (layers (hooks (perform Undo s2))) as ls eqn:E. clear E.
    vm_compute in Hls.
    apply Forall2_cons_inv_l in Hls
      as (l & rest & (Hi & Hn & Hv & Hd & _) & Hrest & ->).
    apply Forall2_nil_inv_l in Hrest as ->.
    destruct l as [i n v d]; simpl in Hi, Hn, Hv, Hd.
    rewrite Hi, Hn, Hv, (Hd eq_refl).
    reflexivity. }
  split; [exact Hr1|].
  split; [rewrite Hcv', Hunder' by (vm_compute; reflexivity); vm_compute; reflexivity|].
  remember (layers (hooks (perform Redo s1))) as ls eqn:E. clear E.
  vm_compute in Hls'.
  apply Forall2_cons_inv_l in Hls'
    as (l & rest & (Hi & Hn & Hv & Hd & _) & Hrest & ->).
  apply Forall2_nil_inv_l in Hrest as ->.
  destruct l as [i n v d]; simpl in Hi, Hn, Hv, Hd.
    rewrite Hi, Hn, Hv, (Hd eq_refl).
  reflexivity.
Defined.

(** C4 fails as stated: with the cursor strictly inside the history, after
    a switch to another layer the canvas shows that layer, and [undo()]
    followed by [redo()] leaves the history entry on the canvas instead. *)
Lemma undo_redo_after_switch_changes_canvas :
  let s := run (api := faithful) back_on_first_layer mount in
  0 < currentStep (hooks s) < Z.of_nat (length (history (hooks s))) - 1
  /\ pending s = []
  /\ canvas s = EmptyString
  /\ canvas (perform Redo (perform Undo s)) = "[#000000 5 M1,2;L3,4;]"
  /\ canvas (perform Redo (perform Undo s)) <> canvas s.
Proof. vm_compute. repeat split; discriminate. Qed.

Lemma undo_redo_restores_displayed_entry_witness :
  let s := run (api := faithful) two_strokes mount in
  canvas (perform Redo (perform Undo s)) = canvas s
  /\ currentStep (hooks (perform Redo (perform Undo s))) = currentStep (hooks s).
Proof.
  intros s.
  apply (undo_redo_restores_displayed_entry (api := faithful) s);
    reflexivity.
Defined.



Lemma switch_away_and_back_witness :
  let s := run (api := faithful) back_on_first_layer mount in
  let lA := mkLayer "2" "Layer 2" true
              "data:image/png;base64,[#000000 5 M1,2;L3,4;]" in
  let s' := perform (SwitchLayer "2")
              (perform (SwitchLayer "1") (perform (SwitchLayer "2") s)) in
  find_layer "2" (layers (hooks s')) = Some lA
  /\ canvas s' = "[#000000 5 M1,2;L3,4;]"
  /\ activeLayer (hooks s') = "2"
  /\ pending s' = [].
Proof.
  intros s lA.
  apply (switch_away_and_back (api := faithful) s "2" "1" lA
           "[#000000 5 M1,2;L3,4;]");
    [reflexivity|discriminate|reflexivity|discriminate|reflexivity
    |reflexivity].
Defined.

(** C6 fails as stated: the second switch can be made while the decode of
    the first is in flight.  With layer ["1"] active and on the canvas,
    [switchLayer] to ["2"], to ["1"] and back to ["2"] in a row stores the
    canvas, which still shows layer ["1"], into layer ["2"]; once the
    three decodes have completed, the raster layer ["2"] had before the
    first switch is lost, although nothing was drawn. *)
Lemma switch_before_decode_overwrites_layer :
  let s := run (api := faithful) back_on_first_layer mount in
  let s' := run [SwitchLayer "2"; SwitchLayer "1"; SwitchLayer "2";
                 ImageLoaded; ImageLoaded; ImageLoaded] s in
  "2" <> "1"
  /\ pending s = [] /\ pending s' = []
  /\ data <$> find_layer "2" (layers (hooks s))
     = Some "data:image/png;base64,[#000000 5 M1,2;L3,4;]"
  /\ data <$> find_layer "2" (layers (hooks s')) = Some png_prefix
  /\ data <$> find_layer "2" (layers (hooks s'))
     <> data <$> find_layer "2" (layers (hooks s)).
Proof. vm_compute. repeat split; discriminate. Qed.

Lemma shape_preview_geometry_witness :
  let s := run (api := faithful) rectangle_anchored mount in
  let c := step (SetTool circle) s in
  canvas (perform (PointerMove 50 30) s) = "[#000000 5 R10,10,40,20;]"
  /\ canvas (perform (PointerMove 40 10) c) = "[#000000 5 A10,10,30;]".
Proof.
  intros s c.
  destruct (shape_preview_geometry (api := faithful) s 50 30
              (mkLayer "1" "Layer 1" true "data:image/png;base64,") EmptyString)
    as (Hrect & _); [reflexivity|reflexivity|reflexivity|discriminate|reflexivity|].
  destruct (shape_preview_geometry (api := faithful) c 40 10
              (mkLayer "1" "Layer 1" true "data:image/png;base64,") EmptyString)
    as (_ & Hcirc); [reflexivity|reflexivity|reflexivity|discriminate|reflexivity|].
  split.
  - apply Hrect. reflexivity.
  - apply Hcirc. reflexivity.
Defined.

(** C8 fails as stated: on a store whose layers carry the ids 3 and 1 in
    that order, the highest id is 3 and [addLayer()] creates the id 2. *)
Lemma addLayer_reads_last_not_highest :
  let s := store_of ["3"; "1"] in
  spec_highest_id (layers (hooks s)) = Some 3
  /\ activeLayer (hooks (step AddLayer s)) = "2"
  /\ activeLayer (hooks (step AddLayer s))
     <> JS.toString (JS.add1 (spec_highest_id (layers (hooks s)))).
Proof. vm_compute. repeat split; discriminate. Qed.

Example addLayer_on_1_2 :
  activeLayer (hooks (step AddLayer (store_of ["1"; "2"]))) = "3".
Proof. vm_compute. done. Qed.

Example addLayer_on_1_3 :
  activeLayer (hooks (step AddLayer (store_of ["1"; "3"]))) = "4".
Proof. vm_compute. done. Qed.

Example addLayer_on_padded_id :
  activeLayer (hooks (step AddLayer (store_of ["1"; " 007"]))) = "8".
Proof. vm_compute. done. Qed.

Lemma addLayer_increments_last_id_witness :
  let s := store_of ["1"; "0x1f"] in
  layers (hooks (step AddLayer s))
  = [mkLayer "1" "Layer 1" true png_prefix;
     mkLayer "0x1f" "Layer 0x1f" true png_prefix;
     mkLayer "32" "Layer 32" true png_prefix]
  /\ activeLayer (hooks (step AddLayer s)) = "32"
  /\ spec_highest_id (layers (hooks s)) = Some 31.
Proof.
  intros s.
  destruct (addLayer_increments_last_id (api := faithful) s
              [mkLayer "1" "Layer 1" true png_prefix]
              (mkLayer "0x1f" "Layer 0x1f" true png_prefix) 31)
    as (Hl & Ha & Hh); [reflexivity|reflexivity|reflexivity|].
  split; [exact Hl|]. split; [exact Ha|]. apply Hh.
  repeat constructor. intros m [= <-]. done.
Defined.

(** C9 fails as stated: [switchLayer] accepts any string, and with the id
    of no layer it leaves [activeLayer] pointing at nothing. *)
Lemma switchLayer_unknown_id_breaks_invariant :
  let s := step (api := faithful) (SwitchLayer "7") mount in
  activeLayer (hooks s) = "7"
  /\ find_layer "7" (layers (hooks s)) = None
  /\ ~ layer_invariant s.
Proof.
  vm_compute. repeat split. intros (_ & [H|[]] & _). discriminate H.
Qed.

Lemma reachable_layer_invariant_witness :
  let s := step (api := faithful) (SwitchLayer "1")
             (step AddLayer mount) in
  reachable s /\ layer_invariant s.
Proof.
  intros s.
  assert (reachable s) as Hr.
  { apply reach_step; [apply reach_step; [apply reach_mount|exact I]|].
    simpl. left. reflexivity. }
  split; [exact Hr|]. exact (reachable_layer_invariant s Hr).
Defined.

(** * Further properties of the component *)

(** ** Invariants of reachable sessions *)

Section ReachableMore.
Context {api : CanvasAPI}.

Lemma run_effects_widths (old : Hooks) (s : Session) :
  widths_bounded s -> widths_bounded (run_effects old s).
Proof.
  intros (Hb & Hw & Hp).
  unfold run_effects, commit_effect, style_effect, widths_bounded.
  repeat case_decide; repeat case_match; simpl; done.
Qed.

Lemma handle_widths (e : Event) (s : Session) :
  widths_bounded s -> widths_bounded (handle e s).
Proof.
  intros H. pose proof H as (Hb & Hw & Hp).
  destruct e; simpl.
  17: { unfold image_loaded. destruct (pending s) as [|d rest] eqn:E; [done|].
        apply Forall_cons in Hp as [Hd Hrest].
        destruct (loadImage (src d)) as [img|]; [|done].
        unfold on_load. destruct (onload d); done. }
  all: unfold startDrawing, draw, stopDrawing, undo, redo, drawFromHistory,
         clearCanvas, addLayer, toggleLayerVisibility, switchLayer,
         resizeCanvas; cbv zeta.
  all: repeat case_match; try done.
  all: unfold widths_bounded; simpl; repeat split; try done; try lia.
  all: apply Forall_app; (split; [done|]); by apply Forall_singleton.
Qed.

(** X1.  In every reachable session the brush size and the line width of
    the context lie between 1 and 30. *)
Theorem reachable_widths_bounded (s : Session) :
  reachable s ->
  1 <= brushSize (hooks s) <= 30 /\ 1 <= lineWidth (ctx s) <= 30.
Proof.
  intros Hr.
  assert (widths_bounded s) as (H1 & H2 & _).
  { induction Hr as [|s e _ IH _].
    - unfold widths_bounded. simpl. repeat split; try done.
    - unfold step. by apply run_effects_widths, handle_widths. }
  done.
Qed.

(** X2.  In every reachable session the history is not empty and the
    cursor is the index of one of its entries. *)
Theorem reachable_cursor_on_entry (s : Session) :
  reachable s ->
  history (hooks s) <> []
  /\ exists e, JS.index (history (hooks s)) (currentStep (hooks s)) = Some e.
Proof.
  intros Hr. destruct (reachable_history_invariant s Hr) as [Hc _].
  split.
  - intros Hnil. rewrite Hnil in Hc. simpl in Hc. lia.
  - unfold JS.index. rewrite (proj2 (Z.ltb_ge _ _)) by lia.
    apply lookup_lt_is_Some. lia.
Qed.

Lemma set_layer_data_written (a e : string) (ls : list Layer) :
  Forall2 (fun l l' =>
             id l' = id l /\ name l' = name l /\ visible l' = visible l
             /\ data l' = if decide (id l = a) then e else data l)
    ls (set_layer_data a e ls).
Proof.
  induction ls as [|l ls IH]; simpl; constructor; [|done].
  by case_decide.
Qed.

(** X3.  When the browser decodes the data URLs its canvas produces,
    [undo()] in a reachable session with no decode in flight and a
    positive cursor always finds an entry that decodes: the entry under
    the new cursor is the data URL of a bitmap, the canvas shows that
    bitmap drawn on the cleared canvas, and, layer by layer in store
    order, the layers with the active id hold the entry as their raster
    while everything else in the store is as before. *)
Theorem reachable_undo_replays (s : Session) :
  (forall p : Pixels, loadImage (toDataURL p) = Some p) ->
  (forall p : Pixels, toDataURL p <> EmptyString) ->
  reachable s -> pending s = [] -> 0 < currentStep (hooks s) ->
  exists p,
    JS.index (history (hooks s)) (currentStep (hooks s) - 1)
      = Some (toDataURL p)
    /\ canvas (perform Undo s) = drawImage p blank
    /\ Forall2 (fun l l' =>
                  id l' = id l /\ name l' = name l
                  /\ visible l' = visible l
                  /\ data l' = if decide (id l = activeLayer (hooks s))
                               then toDataURL p else data l)
         (layers (hooks s)) (layers (hooks (perform Undo s))).
Proof.
  intros Hdec Hne Hr Hp Hc.
  destruct (reachable_history_invariant s Hr) as [Hlt _].
  destruct (reachable_rasters_encoded s Hr) as (_ & Henc & _).
  assert (exists e, JS.index (history (hooks s)) (currentStep (hooks s) - 1)
                    = Some e) as [e He].
  { unfold JS.index. rewrite (proj2 (Z.ltb_ge _ _)) by lia.
    apply lookup_lt_is_Some. lia. }
  destruct (index_encoded _ _ _ Henc He) as [p ->].
  exists p. split; [done|].
  rewrite perform_undo by done.
  destruct (replayed_loaded (currentStep (hooks s) - 1)
              (with_hooks (setCurrentStep (currentStep (hooks s) - 1)
                             (hooks s)) s) (toDataURL p) p) as [-> ->];
    [exact He|apply Hne|apply Hdec|].
  split; [done|]. apply set_layer_data_written.
Qed.
(** X4.  In every reachable session with [n] layers the ids are the
    decimal numbers 1 to [n] in list order, so the next [addLayer()]
    creates the id [n + 1] and never ["NaN"]. *)
Theorem reachable_ids_sequential (s : Session) :
  reachable s ->
  let n := length (layers (hooks s)) in
  map id (layers (hooks s)) = map next_id (seq 1 n)
  /\ activeLayer (hooks (step AddLayer s)) = next_id (S n).
Proof.
  intros Hr.
  assert (store_ok s) as (Hseq & Hne & _).
  { induction Hr as [|s e _ IH Hok].
    - unfold store_ok. simpl. repeat split; [done|]. by left.
    - by apply step_store_ok. }
  cbv zeta. split; [exact Hseq|].
  destruct (exists_last Hne) as (ls & l & Hls).
  rewrite step_addLayer. unfold addLayer. simpl.
  rewrite Hls in Hseq |- *.
  rewrite last_snoc, (sequential_ids_last _ _ Hseq). unfold next_id.
  rewrite (or_else_nonempty (pretty _)) by apply pretty_Z_nonempty.
  rewrite parseInt_pretty. simpl. f_equal. rewrite length_app. simpl. lia.
Qed.

End ReachableMore.

(** ** What the operations leave alone *)

Section Frames.
Context {api : CanvasAPI}.

Lemma handle_history (e : Event) (s : Session) :
  e <> Clear ->
  history (hooks (handle e s)) = history (hooks s).
Proof.
  intros He. destruct e; try done; simpl.
  all: unfold startDrawing, draw, stopDrawing, undo, redo, drawFromHistory,
         addLayer, toggleLayerVisibility, switchLayer, image_loaded,
         on_load; cbv zeta.
  all: repeat case_match; simpl; done.
Qed.

Lemma handle_cursor_other (e : Event) (s : Session) :
  e <> Clear -> e <> Undo -> e <> Redo ->
  currentStep (hooks (handle e s)) = currentStep (hooks s).
Proof.
  intros H1 H2 H3. destruct e; try done; simpl.
  all: unfold startDrawing, draw, stopDrawing, addLayer,
         toggleLayerVisibility, switchLayer, image_loaded, on_load;
       cbv zeta.
  all: repeat case_match; simpl; done.
Qed.

Lemma commit_effect_lookup (s : Session) (i : nat) :
  (Z.of_nat i <= currentStep (hooks s)
   < Z.of_nat (length (history (hooks s))))%Z ->
  history (hooks (commit_effect s)) !! i = history (hooks s) !! i.
Proof.
  intros Hi. destruct (isDrawing (hooks s)) eqn:E.
  - unfold commit_effect. by rewrite E.
  - destruct (commit_effect_truncates s E) as [-> _]; [lia|].
    rewrite lookup_app_l by (rewrite length_take; lia).
    apply lookup_take_lt. lia.
Qed.

(** X5.  No operation rewrites the past: when the cursor is on an entry
    of the history, every entry at or below the cursor is the same after
    any step. *)
Theorem history_below_cursor_kept (e : Event) (s : Session) (i : nat) :
  Z.of_nat i <= currentStep (hooks s) ->
  currentStep (hooks s) < Z.of_nat (length (history (hooks s))) ->
  history (hooks (step e s)) !! i = history (hooks s) !! i.
Proof.
  intros Hi Hc. unfold step, run_effects.
  assert (history (hooks (style_effect (handle e s)))
          = history (hooks (handle e s))) as Hst by done.
  assert (currentStep (hooks (style_effect (handle e s)))
          = currentStep (hooks (handle e s))) as Hsc by done.
  assert (e = Clear \/ e = Undo \/ e = Redo
          \/ (e <> Clear /\ e <> Undo /\ e <> Redo)) as Hcase.
  { destruct e; auto; right; right; right; done. }
  destruct Hcase as [->|[->|[->|(H1 & H2 & H3)]]].
  - simpl. rewrite decide_True by done. rewrite decide_True by done.
    simpl. apply lookup_app_l. apply lookup_lt_is_Some_1.
    apply lookup_lt_is_Some_2. lia.
  - rewrite decide_True
      by (simpl; unfold undo, drawFromHistory; repeat case_match; done).
    rewrite decide_True
      by (simpl; unfold undo, drawFromHistory; repeat case_match; done).
    by rewrite handle_history.
  - rewrite decide_True
      by (simpl; unfold redo, drawFromHistory; repeat case_match; done).
    rewrite decide_True
      by (simpl; unfold redo, drawFromHistory; repeat case_match; done).
    by rewrite handle_history.
  - pose proof (handle_history e s H1) as Hh.
    pose proof (handle_cursor_other e s H1 H2 H3) as Hcur.
    repeat case_decide; rewrite ?commit_effect_lookup; rewrite ?Hst, ?Hsc;
      rewrite ?Hh, ?Hcur; try done; lia.
Qed.

Lemma run_effects_id_name (old : Hooks) (s : Session) :
  map id_name (layers (hooks (run_effects old s)))
  = map id_name (layers (hooks s)).
Proof.
  assert (forall a d ls,
    map id_name (set_layer_data a d ls) = map id_name ls) as Hset.
  { intros a d ls. unfold set_layer_data. rewrite map_map.
    apply map_ext. intros l. by case_decide. }
  unfold run_effects, commit_effect, style_effect.
  repeat case_decide; repeat case_match; simpl; by rewrite ?Hset.
Qed.

Lemma handle_id_name (e : Event) (s : Session) :
  e <> AddLayer ->
  map id_name (layers (hooks (handle e s)))
  = map id_name (layers (hooks s)).
Proof.
  assert (forall a d ls,
    map id_name (set_layer_data a d ls) = map id_name ls) as Hset.
  { intros a d ls. unfold set_layer_data. rewrite map_map.
    apply map_ext. intros l. by case_decide. }
  intros He. destruct e; try done; simpl.
  all: unfold startDrawing, draw, stopDrawing, undo, redo, drawFromHistory,
         clearCanvas, toggleLayerVisibility, switchLayer, image_loaded,
         on_load; cbv zeta.
  all: repeat case_match; simpl; rewrite ?Hset; try done.
  all: rewrite map_map; apply map_ext; intros l; by case_decide.
Qed.

(** X6.  No operation removes, reorders or renames a layer: after any
    step the ids and names of the layers that were there are the same, in
    the same positions, and only [addLayer()] adds one, at the end. *)
Theorem layers_kept (e : Event) (s : Session) :
  exists added,
    map id_name (layers (hooks (step e s)))
    = map id_name (layers (hooks s)) ++ added
    /\ length added = (if decide (e = AddLayer) then 1 else 0)%nat.
Proof.
  unfold step.
  destruct (decide (e = AddLayer)) as [->|He].
  - rewrite run_effects_id_name. simpl. unfold addLayer. simpl.
    rewrite map_app. by eexists.
  - exists []. rewrite run_effects_id_name, handle_id_name by done.
    by rewrite app_nil_r.
Qed.

End Frames.

Section Frames2.
Context {api : CanvasAPI}.

Lemma find_layer_set_other (i a d : string) (ls : list Layer) (l : Layer) :
  i <> a -> find_layer i ls = Some l ->
  find_layer i (set_layer_data a d ls) = Some l.
Proof.
  intros Hia Hl. rewrite find_layer_set_layer_data, Hl. simpl.
  rewrite decide_False; [done|].
  rewrite (find_layer_id _ _ _ Hl). done.
Qed.

Lemma find_layer_app (i : string) (ls more : list Layer) (l : Layer) :
  find_layer i ls = Some l -> find_layer i (ls ++ more) = Some l.
Proof.
  unfold find_layer. induction ls as [|x ls IH]; [done|]. simpl.
  destruct (bool_decide (id x = i)); [done|]. exact IH.
Qed.

Lemma find_layer_toggle (i j : string) (ls : list Layer) (l : Layer) :
  find_layer i ls = Some l ->
  exists l',
    find_layer i
      (map (fun l0 => if decide (id l0 = j)
                      then mkLayer (id l0) (name l0) (negb (visible l0))
                             (data l0)
                      else l0) ls) = Some l'
    /\ data l' = data l.
Proof.
  unfold find_layer. induction ls as [|x ls IH]; [done|]. simpl.
  assert (id (if decide (id x = j)
              then mkLayer (id x) (name x) (negb (visible x)) (data x)
              else x) = id x) as -> by (by case_decide).
  destruct (bool_decide (id x = i)).
  - intros [= <-]. eexists. split; [done|]. by case_decide.
  - exact IH.
Qed.

Lemma run_effects_other_layer (old : Hooks) (s : Session) (i : string)
    (l : Layer) :
  isDrawing old = isDrawing (hooks s) \/ i <> activeLayer (hooks s) ->
  find_layer i (layers (hooks s)) = Some l ->
  find_layer i (layers (hooks (run_effects old s))) = Some l.
Proof.
  intros Hor Hl. unfold run_effects, commit_effect, style_effect.
  repeat case_decide; repeat case_match; simpl; try done.
  all: destruct Hor as [?|Hne]; [done|].
  all: by apply find_layer_set_other.
Qed.

(** X7.  Layers are isolated from one another: a step other than the
    completion of a decode never changes the raster of a layer that is not
    the active one. *)
Theorem other_layers_kept (e : Event) (s : Session) (i : string)
    (l : Layer) :
  e <> ImageLoaded ->
  i <> activeLayer (hooks s) ->
  find_layer i (layers (hooks s)) = Some l ->
  exists l',
    find_layer i (layers (hooks (step e s))) = Some l' /\ data l' = data l.
Proof.
  intros He Hi Hl. unfold step.
  assert (exists l',
            find_layer i (layers (hooks (handle e s))) = Some l'
            /\ data l' = data l) as (l' & Hl' & Hd).
  { destruct e; try done; simpl.
    all: unfold startDrawing, draw, stopDrawing, undo, redo,
           drawFromHistory, clearCanvas, addLayer, toggleLayerVisibility,
           switchLayer; cbv zeta.
    all: repeat case_match; simpl.
    all: try (by exists l).
    all: try (exists l; split; [by apply find_layer_set_other|done]).
    all: try (exists l; split; [by apply find_layer_app|done]).
    by apply find_layer_toggle. }
  exists l'. split; [|done].
  apply run_effects_other_layer; [|done].
  destruct e; try done; simpl.
  all: unfold startDrawing, draw, stopDrawing, undo, redo,
         drawFromHistory, clearCanvas, addLayer, toggleLayerVisibility,
         switchLayer; cbv zeta.
  all: repeat case_match; simpl; auto.
Qed.

(** X8.  Toggling the visibility of a layer twice gives the session back,
    and one toggle changes neither the canvas, nor the history, nor any
    raster, nor the active layer. *)
Theorem toggle_visibility_twice (i : string) (s : Session) :
  step (ToggleVisibility i) (step (ToggleVisibility i) s) = s
  /\ canvas (step (ToggleVisibility i) s) = canvas s
  /\ history (hooks (step (ToggleVisibility i) s)) = history (hooks s)
  /\ map data (layers (hooks (step (ToggleVisibility i) s)))
     = map data (layers (hooks s))
  /\ activeLayer (hooks (step (ToggleVisibility i) s))
     = activeLayer (hooks s).
Proof.
  assert (forall t, step (ToggleVisibility i) t = toggleLayerVisibility i t)
    as Hstep.
  { intros t. unfold step, handle. by apply run_effects_same. }
  rewrite !Hstep. unfold toggleLayerVisibility. simpl.
  repeat split.
  - destruct s as [h cv c p]. destruct h as [dm dr tl cl bs sx sy hi cs ls al].
    unfold with_hooks, setLayers. simpl.
    match goal with |- context [map ?f (map ?f ls)] =>
      assert (map f (map f ls) = ls) as ->; [|done] end.
    rewrite map_map. rewrite <- (map_id ls) at 2.
    apply map_ext. intros [a n v d]. simpl.
    destruct (decide (a = i)) as [->|Hne]; simpl.
    + rewrite decide_True by done. simpl. by rewrite negb_involutive.
    + by rewrite decide_False.
  - rewrite map_map. apply map_ext. intros l. by case_decide.
Qed.

(** X9.  Pointer moves and releases that arrive while no action is in
    progress change nothing. *)
Theorem idle_pointer_ignored (s : Session) (x y : Z) :
  isDrawing (hooks s) = false ->
  step (PointerMove x y) s = s /\ step PointerUp s = s.
Proof.
  intros Hd. unfold step, handle, draw, stopDrawing. rewrite Hd. simpl.
  split; by apply run_effects_same.
Qed.

Lemma undo_hooks (s : Session) :
  history (hooks (step Undo s)) = history (hooks s)
  /\ currentStep (hooks (step Undo s))
     = (if 0 <? currentStep (hooks s)
        then currentStep (hooks s) - 1 else currentStep (hooks s)).
Proof.
  rewrite step_undo. unfold undo, drawFromHistory. cbv zeta.
  repeat case_match; done.
Qed.

Lemma redo_hooks (s : Session) :
  history (hooks (step Redo s)) = history (hooks s)
  /\ currentStep (hooks (step Redo s))
     = (if currentStep (hooks s) <? Z.of_nat (length (history (hooks s))) - 1
        then currentStep (hooks s) + 1 else currentStep (hooks s)).
Proof.
  rewrite step_redo. unfold redo, drawFromHistory. cbv zeta.
  repeat case_match; done.
Qed.

(** X10.  Undo and redo only move the cursor, and never past the ends:
    from a cursor [c] on an entry of a history of [n] entries, [k] undos
    lead to [max (c - k) 0] and [k] redos to [min (c + k) (n - 1)], with
    the history unchanged. *)
Theorem repeated_undo_redo (k : nat) (s : Session) :
  0 <= currentStep (hooks s) < Z.of_nat (length (history (hooks s))) ->
  let c := currentStep (hooks s) in
  let n := Z.of_nat (length (history (hooks s))) in
  let u := run (replicate k Undo) s in
  let r := run (replicate k Redo) s in
  history (hooks u) = history (hooks s)
  /\ currentStep (hooks u) = Z.max (c - Z.of_nat k) 0
  /\ history (hooks r) = history (hooks s)
  /\ currentStep (hooks r) = Z.min (c + Z.of_nat k) (n - 1).
Proof.
  revert s. induction k as [|k IH]; intros s Hc; cbv zeta.
  - simpl. repeat split; lia.
  - change (replicate (S k) Undo) with (Undo :: replicate k Undo).
    change (replicate (S k) Redo) with (Redo :: replicate k Redo).
    rewrite !run_cons.
    destruct (undo_hooks s) as [Hu1 Hu2].
    destruct (redo_hooks s) as [Hr1 Hr2].
    destruct (0 <? currentStep (hooks s)) eqn:Eu;
      [apply Z.ltb_lt in Eu|apply Z.ltb_ge in Eu].
    all: destruct (currentStep (hooks s) <? _) eqn:Er;
      [apply Z.ltb_lt in Er|apply Z.ltb_ge in Er].
    all: destruct (IH (step Undo s)) as (A1 & A2 & _);
      [rewrite Hu1, Hu2; lia|].
    all: destruct (IH (step Redo s)) as (_ & _ & B1 & B2);
      [rewrite Hr1, Hr2; lia|].
    all: cbv zeta in *; rewrite A1, A2, B1, B2, Hu1, Hu2, Hr1, Hr2.
    all: repeat split; lia.
Qed.

(** X11.  A completed draw action leaves nothing to redo: after the
    pointer is released, [redo()] changes nothing. *)
Theorem redo_after_draw_ignored (s : Session) :
  isDrawing (hooks s) = true ->
  -1 <= currentStep (hooks s) < Z.of_nat (length (history (hooks s))) ->
  step Redo (step PointerUp s) = step PointerUp s.
Proof.
  intros Hd Hc.
  destruct (step_pointer_up s Hd Hc) as (_ & Hcur & _). cbv zeta in Hcur.
  rewrite step_redo. unfold redo.
  rewrite (proj2 (Z.ltb_ge _ _)); [done|]. lia.
Qed.

End Frames2.

(** ** Gestures *)

Section GestureProperties.
Context {api : CanvasAPI}.

Lemma step_down (x y : Z) (s : Session) :
  step (PointerDown x y) s = startDrawing x y s.
Proof.
  unfold step, run_effects, handle.
  assert (isDrawing (hooks (startDrawing x y s)) = true) as Hd
    by (unfold startDrawing; by case_decide).
  assert (color (hooks s) = color (hooks (startDrawing x y s))
          /\ brushSize (hooks s) = brushSize (hooks (startDrawing x y s))
          /\ tool (hooks s) = tool (hooks (startDrawing x y s))) as Hdeps
    by (unfold startDrawing; by case_decide).
  rewrite (decide_True (P := _ /\ _ /\ _)) by exact Hdeps.
  case_decide; [done|]. unfold commit_effect. by rewrite Hd.
Qed.

Lemma moves_brush (pts : list (Z * Z)) (s : Session) :
  isDrawing (hooks s) = true ->
  tool (hooks s) = brush \/ tool (hooks s) = eraser ->
  let s' := run (moves pts) s in
  hooks s' = hooks s
  /\ pending s' = pending s
  /\ strokeStyle (ctx s') = strokeStyle (ctx s)
  /\ lineWidth (ctx s') = lineWidth (ctx s)
  /\ path (ctx s') = path (ctx s) ++ map line_to pts
  /\ canvas s'
     = paint_moves (strokeStyle (ctx s)) (lineWidth (ctx s)) (path (ctx s))
         pts (canvas s).
Proof.
  revert s. induction pts as [|pt pts IH]; intros s Hd Ht; cbv zeta.
  - simpl. by rewrite app_nil_r.
  - simpl moves. rewrite run_cons, step_move.
    set (s1 := draw (fst pt) (snd pt) s).
    assert (s1 = with_canvas
                   (stroke (strokeStyle (ctx s)) (lineWidth (ctx s))
                      (path (ctx s) ++ [line_to pt]) (canvas s))
                   (with_ctx (mkCtx (strokeStyle (ctx s)) (lineWidth (ctx s))
                                (path (ctx s) ++ [line_to pt])) s)) as Hs1.
    { unfold s1, draw. rewrite Hd. simpl. by rewrite decide_True. }
    destruct (IH s1) as (A1 & A2 & A3 & A4 & A5 & A6).
    { by rewrite Hs1. }
    { by rewrite Hs1. }
    cbv zeta in *. rewrite A1, A2, A3, A4, A5, A6, Hs1. simpl.
    by rewrite <- app_assoc.
Qed.

(** X12.  A freehand gesture with the brush or the eraser: the path starts
    at the anchor and gains one line per move, every move strokes the whole
    path again with the stroke style and line width the context had when
    the pointer went down, and until the pointer is released neither the
    history, nor the layers, nor the decodes in flight change. *)
Theorem freehand_gesture (s : Session) (x y : Z) (pts : list (Z * Z)) :
  tool (hooks s) = brush \/ tool (hooks s) = eraser ->
  let s' := run (PointerDown x y :: moves pts) s in
  path (ctx s') = MoveTo x y :: map line_to pts
  /\ canvas s'
     = paint_moves (strokeStyle (ctx s)) (lineWidth (ctx s)) [MoveTo x y]
         pts (canvas s)
  /\ isDrawing (hooks s') = true
  /\ history (hooks s') = history (hooks s)
  /\ currentStep (hooks s') = currentStep (hooks s)
  /\ layers (hooks s') = layers (hooks s)
  /\ pending s' = pending s.
Proof.
  intros Ht. cbv zeta. rewrite run_cons, step_down.
  set (s1 := startDrawing x y s).
  assert (s1 = with_hooks (setIsDrawing true (setStart x y (hooks s)))
                 (with_ctx (mkCtx (strokeStyle (ctx s)) (lineWidth (ctx s))
                              [MoveTo x y]) s)) as Hs1.
  { unfold s1, startDrawing. by rewrite decide_True. }
  destruct (moves_brush pts s1) as (A1 & A2 & A3 & A4 & A5 & A6).
  { by rewrite Hs1. }
  { by rewrite Hs1. }
  cbv zeta in *. rewrite A1, A2, A5, A6, Hs1. simpl. done.
Qed.






End GestureProperties.

(** ** Round trips through the history *)

Section RoundTrips.
Context {api : CanvasAPI}.

Lemma settle_pending (s : Session) : pending (settle s) = [].
Proof.
  unfold settle. remember (length (pending s)) as n eqn:Hn.
  revert s Hn. induction n as [|n IH]; intros s Hn.
  - simpl. by destruct (pending s).
  - simpl replicate. rewrite run_cons. apply IH.
    rewrite image_loaded_pending. destruct (pending s); simpl in *; lia.
Qed.

Lemma settle_history (s : Session) :
  history (hooks (settle s)) = history (hooks s)
  /\ currentStep (hooks (settle s)) = currentStep (hooks s).
Proof.
  unfold settle.
  destruct (run_neutral (replicate (length (pending s)) ImageLoaded) s)
    as (H1 & H2 & _); [|done].
  induction (length (pending s)); [done|]. simpl. done.
Qed.

Lemma index_app_l {A} (l more : list A) (n : Z) (x : A) :
  JS.index l n = Some x -> JS.index (l ++ more) n = Some x.
Proof.
  unfold JS.index. case_match; [done|]. intros Hx.
  by apply lookup_app_l_Some.
Qed.

Lemma index_take {A} (l : list A) (n : Z) (x : A) :
  JS.index l n = Some x ->
  JS.index (take (Z.to_nat (n + 1)) l) n = Some x.
Proof.
  unfold JS.index. case_match eqn:E; [done|]. apply Z.ltb_ge in E.
  intros Hx. rewrite lookup_take_lt by lia. exact Hx.
Qed.

Lemma undo_shows_entry `{!Lossless api} (s : Session) (p : Pixels) :
  pending s = [] -> 0 < currentStep (hooks s) ->
  JS.index (history (hooks s)) (currentStep (hooks s) - 1)
    = Some (toDataURL p) ->
  canvas (perform Undo s) = p
  /\ currentStep (hooks (perform Undo s)) = currentStep (hooks s) - 1.
Proof.
  intros Hp Hc He. rewrite perform_undo by done.
  set (s0 := with_hooks _ s).
  destruct (replayed_hooks (currentStep (hooks s) - 1) s0) as (-> & _).
  destruct (replayed_loaded (currentStep (hooks s) - 1) s0 (toDataURL p) p)
    as [-> _]; [exact He|apply toDataURL_nonempty|apply load_toDataURL|].
  by rewrite drawImage_blank.
Qed.

Lemma undo_draws_entry (s : Session) (e : string) (img : Pixels) :
  pending s = [] -> 0 < currentStep (hooks s) ->
  JS.index (history (hooks s)) (currentStep (hooks s) - 1) = Some e ->
  e <> EmptyString -> loadImage e = Some img ->
  canvas (perform Undo s) = drawImage img blank
  /\ currentStep (hooks (perform Undo s)) = currentStep (hooks s) - 1.
Proof.
  intros Hp Hc He Hne Himg. rewrite perform_undo by done.
  set (s0 := with_hooks _ s).
  destruct (replayed_hooks (currentStep (hooks s) - 1) s0) as (-> & _).
  by destruct (replayed_loaded (currentStep (hooks s) - 1) s0 e img)
    as [-> _].
Qed.

(** X15.  A draw action can be undone.  When the canvas shows the entry
    under the cursor before the action, and that entry is a non-empty
    string that loads as the bitmap it encodes, [undo()] after the action
    and its decodes gives back the cursor the session had before the
    action and draws the bitmap the canvas had before it on the cleared
    canvas.  (Whatever the action did in between, a resize included: the
    bitmap is then drawn at the origin of a canvas of other dimensions.) *)
Theorem draw_then_undo (a : DrawAction) (s : Session) :
  plain_action a ->
  isDrawing (hooks s) = false ->
  JS.index (history (hooks s)) (currentStep (hooks s))
    = Some (toDataURL (canvas s)) ->
  toDataURL (canvas s) <> EmptyString ->
  loadImage (toDataURL (canvas s)) = Some (canvas s) ->
  let s' := perform Undo (settle (run (action_events a) s)) in
  canvas s' = drawImage (canvas s) blank
  /\ currentStep (hooks s') = currentStep (hooks s).
Proof.
  intros [Hb Hdu] Hidle Hshown Hne Hload.
  pose proof (index_lt _ _ _ Hshown) as Hlt.
  set (s4 := run (action_events a) s).
  assert (history (hooks s4)
          = take (Z.to_nat (currentStep (hooks s) + 1)) (history (hooks s))
              ++ [toDataURL (canvas (run (during a)
                    (step (PointerDown (fst (anchor a)) (snd (anchor a)))
                       (run (before a) s))))]
          /\ currentStep (hooks s4) = currentStep (hooks s) + 1)
    as [Hh Hc].
  { unfold s4, action_events. rewrite !run_app, !run_cons. simpl run.
    set (s1 := run (before a) s).
    destruct (run_neutral (before a) s Hb) as (A1 & A2 & _).
    fold s1 in A1, A2.
    set (s2 := step (PointerDown _ _) s1).
    destruct (step_pointer_down (fst (anchor a)) (snd (anchor a)) s1)
      as (B1 & B2 & B3). fold s2 in B1, B2, B3.
    set (s3 := run (during a) s2).
    destruct (run_neutral (during a) s2 Hdu) as (C1 & C2 & C3).
    fold s3 in C1, C2, C3.
    assert (history (hooks s3) = history (hooks s)) as Hh3 by congruence.
    assert (currentStep (hooks s3) = currentStep (hooks s)) as Hc3
      by congruence.
    destruct (step_pointer_up s3) as (D1 & D2 & _);
      [congruence|rewrite Hh3, Hc3; lia|].
    cbv zeta in D1, D2. rewrite D2, D1, Hh3, Hc3. split; [done|].
    rewrite length_app, length_take. simpl. lia. }
  destruct (settle_history s4) as [Sh Sc].
  cbv zeta.
  destruct (undo_draws_entry (settle s4) (toDataURL (canvas s)) (canvas s))
    as [-> ->]; [..|done|done|].
  - apply settle_pending.
  - rewrite Sc, Hc. lia.
  - rewrite Sh, Sc, Hh, Hc.
    replace (currentStep (hooks s) + 1 - 1) with (currentStep (hooks s))
      by lia.
    by apply index_app_l, index_take.
  - split; [done|]. rewrite Sc, Hc. lia.
Qed.
(** X16.  [clear()] can be undone wherever the cursor is: with a codec
    that loses nothing and no decode in flight, when the canvas shows the
    entry under the cursor, [undo()] after [clear()] gives back the pixels
    and the cursor the session had before it. *)
Theorem clear_then_undo `{!Lossless api} (s : Session) :
  pending s = [] ->
  JS.index (history (hooks s)) (currentStep (hooks s))
    = Some (toDataURL (canvas s)) ->
  let s' := perform Undo (step Clear s) in
  canvas s' = canvas s /\ currentStep (hooks s') = currentStep (hooks s).
Proof.
  intros Hp Hshown.
  pose proof (index_lt _ _ _ Hshown) as Hlt.
  destruct (clearCanvas_history s) as (Hh & Hc & _). cbv zeta in Hh, Hc.
  assert (pending (step Clear s) = []) as Hp'.
  { unfold step, handle, clearCanvas. by rewrite run_effects_same. }
  cbv zeta. destruct (undo_shows_entry (step Clear s) (canvas s))
    as [-> ->]; [done|lia| |split; [done|lia]].
  rewrite Hh, Hc.
  replace (currentStep (hooks s) + 1 - 1) with (currentStep (hooks s))
    by lia.
  by apply index_app_l.
Qed.

End RoundTrips.

(** ** Resizing, colours and degenerate stores *)

Section Edges.
Context {api : CanvasAPI}.

(** X17.  A window resize clears the canvas and leaves the hooks (history,
    cursor, layers, tool, colour, size) as they are, but it sets the stroke
    style and line width of the first render: the next freehand stroke is
    painted in [#000000] with width 5 whatever colour, size or tool is
    selected. *)
Theorem resize_resets_stroke_style (s : Session) (x y x' y' : Z) :
  tool (hooks s) = brush \/ tool (hooks s) = eraser ->
  let r := step Resize s in
  hooks r = hooks s
  /\ canvas r = blank
  /\ canvas (run [PointerDown x y; PointerMove x' y'] r)
     = stroke "#000000" 5 [MoveTo x y; LineTo x' y'] blank.
Proof.
  intros Ht. cbv zeta.
  assert (step Resize s = resizeCanvas s) as ->
    by (unfold step, handle; by apply run_effects_same).
  repeat split.
  rewrite run_cons, step_down.
  assert (startDrawing x y (resizeCanvas s)
          = with_hooks (setIsDrawing true (setStart x y (hooks s)))
              (with_ctx (mkCtx "#000000" 5 [MoveTo x y])
                 (resizeCanvas s))) as ->.
  { unfold startDrawing. by rewrite decide_True. }
  set (s1 := with_hooks _ _).
  destruct (moves_brush [(x', y')] s1) as (_ & _ & _ & _ & _ & Hcv);
    [done|done|].
  exact Hcv.
Qed.

(** X18.  Picking a colour while the eraser is selected stores the colour
    and leaves the stroke style white; switching to the brush afterwards
    makes the picked colour the stroke style. *)
Theorem colour_picked_while_erasing (s : Session) (c : string) :
  tool (hooks s) = eraser -> c <> color (hooks s) ->
  let s1 := step (SetColor c) s in
  strokeStyle (ctx s1) = "#ffffff"
  /\ color (hooks s1) = c
  /\ strokeStyle (ctx (step (SetTool brush) s1)) = c.
Proof.
  intros Ht Hc. cbv zeta. unfold step, run_effects, handle. simpl.
  rewrite (decide_False (P := color (hooks s) = c /\ _))
    by (intros (? & _); congruence).
  rewrite (decide_True (P := isDrawing _ = isDrawing _)) by done.
  unfold style_effect. simpl. rewrite Ht. simpl.
  rewrite (decide_False (P := _ /\ _ /\ eraser = brush))
    by (by intros (_ & _ & ?)).
  by rewrite (decide_True (P := isDrawing _ = isDrawing _)).
Qed.

(** X19.  [addLayer()] on degenerate stores.  On an empty store it
    creates the layer ["1"].  When the id of the last layer does not start
    with a number, the new id is ["NaN"], the one after it is ["NaN"]
    again, and the ids of the store are no longer unique. *)
Theorem addLayer_degenerate_stores (s : Session) :
  (layers (hooks s) = [] ->
   layers (hooks (step AddLayer s))
   = [mkLayer "1" "Layer 1" true (toDataURL (canvas s))]
   /\ activeLayer (hooks (step AddLayer s)) = "1")
  /\ (forall ls l,
        layers (hooks s) = ls ++ [l] ->
        JS.parseInt (JS.or_else (id l) "0") = None ->
        let s1 := step AddLayer s in
        let s2 := step AddLayer s1 in
        activeLayer (hooks s1) = "NaN"
        /\ activeLayer (hooks s2) = "NaN"
        /\ ~ NoDup (map id (layers (hooks s2)))).
Proof.
  split.
  - intros Hnil. rewrite step_addLayer. unfold addLayer. rewrite Hnil.
    simpl. by rewrite or_else_empty.
  - intros ls l Hls Hnan. cbv zeta. rewrite !step_addLayer.
    assert (activeLayer (hooks (addLayer s)) = "NaN"
            /\ exists d, layers (hooks (addLayer s))
                         = (ls ++ [l]) ++ [mkLayer "NaN" "Layer NaN" true d])
      as [Ha [d Hl]].
    { unfold addLayer. rewrite Hls, last_snoc, Hnan. simpl. eauto. }
    split; [exact Ha|].
    remember (addLayer s) as s1 eqn:E. clear E.
    unfold addLayer. rewrite Hl, last_snoc. simpl.
    split; [done|].
    rewrite !map_app. simpl. intros Hnd.
    apply NoDup_app in Hnd as (_ & Hnin & _).
    apply (Hnin "NaN"); [|by left].
    apply elem_of_app. right. by left.
Qed.

End Edges.

(** ** Closed instances of the further properties *)

Lemma reachable_widths_bounded_witness :
  let s := run (api := faithful) (replicate 40 IncreaseSize) mount in
  reachable s
  /\ 1 <= brushSize (hooks s) <= 30 /\ 1 <= lineWidth (ctx s) <= 30.
Proof.
  intros s.
  assert (reachable s) as Hr.
  { unfold s. cbv [run replicate fold_left].
    repeat (apply reach_step; [|exact I]). apply reach_mount. }
  split; [exact Hr|]. exact (reachable_widths_bounded s Hr).
Defined.

Lemma reachable_cursor_on_entry_witness :
  let s := run (api := faithful) two_strokes_undone mount in
  reachable s
  /\ history (hooks s) <> []
  /\ exists e, JS.index (history (hooks s)) (currentStep (hooks s)) = Some e.
Proof.
  intros s.
  assert (reachable s) as Hr.
  { unfold s. cbv [run two_strokes_undone two_strokes app fold_left].
    repeat (apply reach_step; [|exact I]). apply reach_mount. }
  split; [exact Hr|]. exact (reachable_cursor_on_entry s Hr).
Defined.

Lemma reachable_undo_replays_witness :
  let s := run (api := faithful) two_strokes mount in
  canvas (perform Undo s) = "[#000000 5 M1,2;L3,4;]"
  /\ layers (hooks (perform Undo s))
     = [mkLayer "1" "Layer 1" true
          "data:image/png;base64,[#000000 5 M1,2;L3,4;]"].
Proof.
  intros s.
  assert (reachable s) as Hr.
  { unfold s. cbv [run two_strokes fold_left].
    repeat (apply reach_step; [|exact I]). apply reach_mount. }
  destruct (reachable_undo_replays (api := faithful) s
              (load_toDataURL (api := faithful))
              (toDataURL_nonempty (api := faithful)) Hr)
    as (p & He & Hcv & Hls); [vm_compute; reflexivity..|].
  assert (p = "[#000000 5 M1,2;L3,4;]") as ->.
  { vm_compute in He. by injection He. }
  split; [rewrite Hcv; reflexivity|].
  remember (layers (hooks (perform Undo s))) as ls eqn:E. clear E.
  vm_compute in Hls.
  apply Forall2_cons_inv_l in Hls
    as (l & rest & (Hi & Hn & Hv & Hd) & Hrest & ->).
  apply Forall2_nil_inv_l in Hrest as ->.
  destruct l as [i n v d]; simpl in Hi, Hn, Hv, Hd.
  rewrite Hi, Hn, Hv, Hd. reflexivity.
Defined.

Lemma reachable_ids_sequential_witness :
  let s := step (api := faithful) AddLayer mount in
  map id (layers (hooks s)) = ["1"; "2"]
  /\ activeLayer (hooks (step AddLayer s)) = "3".
Proof.
  intros s.
  assert (reachable s) as Hr.
  { apply reach_step; [apply reach_mount|exact I]. }
  exact (reachable_ids_sequential s Hr).
Defined.

Lemma history_below_cursor_kept_witness :
  let s := run (api := faithful) two_strokes_undone mount in
  history (hooks (step Clear s)) !! 1%nat = history (hooks s) !! 1%nat.
Proof.
  intros s.
  apply (history_below_cursor_kept (api := faithful) Clear s 1);
    vm_compute; [discriminate|reflexivity].
Defined.

Lemma other_layers_kept_witness :
  let s := run (api := faithful) back_on_first_layer mount in
  let l := mkLayer "2" "Layer 2" true
             "data:image/png;base64,[#000000 5 M1,2;L3,4;]" in
  exists l',
    find_layer "2" (layers (hooks (step Clear s))) = Some l'
    /\ data l' = data l.
Proof.
  intros s l.
  apply (other_layers_kept (api := faithful) Clear s "2" l);
    [discriminate|vm_compute; discriminate|vm_compute; reflexivity].
Defined.

Lemma idle_pointer_ignored_witness :
  let s := mount (api := faithful) in
  step (PointerMove 3 4) s = s /\ step PointerUp s = s.
Proof.
  intros s.
  apply (idle_pointer_ignored (api := faithful) s 3 4). reflexivity.
Defined.

Lemma repeated_undo_redo_witness :
  let s := run (api := faithful) two_strokes_undone mount in
  currentStep (hooks (run (replicate 5 Undo) s)) = 0
  /\ currentStep (hooks (run (replicate 5 Redo) s)) = 2.
Proof.
  intros s.
  destruct (repeated_undo_redo (api := faithful) 5 s)
    as (_ & Hu & _ & Hr).
  { vm_compute. split; [discriminate|reflexivity]. }
  split; [exact Hu|exact Hr].
Defined.

Lemma redo_after_draw_ignored_witness :
  let s := run (api := faithful) (two_strokes_undone ++ [PointerDown 9 9])
             mount in
  step Redo (step PointerUp s) = step PointerUp s.
Proof.
  intros s.
  apply (redo_after_draw_ignored (api := faithful) s);
    vm_compute; [reflexivity|split; [discriminate|reflexivity]].
Defined.

Lemma freehand_gesture_witness :
  let s := step (api := faithful) (SetTool eraser) mount in
  let s' := run (PointerDown 1 2 :: moves [(3, 4); (5, 6)]) s in
  path (ctx s') = [MoveTo 1 2; LineTo 3 4; LineTo 5 6]
  /\ canvas s' = "[#ffffff 5 M1,2;L3,4;][#ffffff 5 M1,2;L3,4;L5,6;]"
  /\ isDrawing (hooks s') = true
  /\ history (hooks s') = history (hooks s)
  /\ currentStep (hooks s') = currentStep (hooks s)
  /\ layers (hooks s') = layers (hooks s)
  /\ pending s' = pending s.
Proof.
  intros s.
  apply (freehand_gesture (api := faithful) s 1 2 [(3, 4); (5, 6)]).
  right. reflexivity.
Defined.



Lemma draw_then_undo_witness :
  let a := mkAction [] (1, 2) [PointerMove 3 4] in
  let s := run (api := faithful) two_strokes mount in
  let s' := perform Undo (settle (run (action_events a) s)) in
  canvas s = "[#000000 5 M1,2;L3,4;][#000000 5 M5,6;L7,8;]"
  /\ canvas s' = "[#000000 5 M1,2;L3,4;][#000000 5 M5,6;L7,8;]"
  /\ currentStep (hooks s') = 2.
Proof.
  intros a s.
  split; [vm_compute; reflexivity|].
  apply (draw_then_undo (api := faithful) a s);
    [split; reflexivity|reflexivity|reflexivity|discriminate|reflexivity].
Defined.

Lemma clear_then_undo_witness :
  let s := run (api := faithful) two_strokes_undone mount in
  let s' := perform Undo (step Clear s) in
  canvas s' = canvas s /\ currentStep (hooks s') = currentStep (hooks s).
Proof.
  intros s.
  apply (clear_then_undo (api := faithful) s); reflexivity.
Defined.

Lemma resize_resets_stroke_style_witness :
  let s := run (api := faithful)
             [SetColor "#ff0000"; IncreaseSize; SetTool eraser] mount in
  let r := step Resize s in
  hooks r = hooks s
  /\ canvas r = EmptyString
  /\ canvas (run [PointerDown 1 2; PointerMove 3 4] r)
     = "[#000000 5 M1,2;L3,4;]".
Proof.
  intros s.
  apply (resize_resets_stroke_style (api := faithful) s 1 2 3 4).
  right. reflexivity.
Defined.

Lemma colour_picked_while_erasing_witness :
  let s := step (api := faithful) (SetTool eraser) mount in
  let s1 := step (SetColor "#ff0000") s in
  strokeStyle (ctx s1) = "#ffffff"
  /\ color (hooks s1) = "#ff0000"
  /\ strokeStyle (ctx (step (SetTool brush) s1)) = "#ff0000".
Proof.
  intros s.
  apply (colour_picked_while_erasing (api := faithful) s "#ff0000");
    [reflexivity|discriminate].
Defined.

Example addLayer_after_wide_space :
  activeLayer (hooks (step AddLayer (store_of [no_break_space +:+ "12"])))
  = "13".
Proof. vm_compute. done. Qed.

Lemma addLayer_degenerate_stores_witness :
  let e := store_of [] in
  let s := store_of ["base"] in
  layers (hooks (step AddLayer e)) = [mkLayer "1" "Layer 1" true png_prefix]
  /\ activeLayer (hooks (step AddLayer s)) = "NaN"
  /\ activeLayer (hooks (step AddLayer (step AddLayer s))) = "NaN"
  /\ ~ NoDup (map id (layers (hooks (step AddLayer (step AddLayer s))))).
Proof.
  intros e s.
  destruct (addLayer_degenerate_stores (api := faithful) e) as [Hempty _].
  destruct (addLayer_degenerate_stores (api := faithful) s) as [_ Hnan].
  destruct (Hempty eq_refl) as [He _].
  destruct (Hnan [] (mkLayer "base" "Layer base" true png_prefix) eq_refl
              eq_refl) as (H1 & H2 & H3).
  split; [exact He|]. split; [exact H1|]. split; [exact H2|exact H3].
Defined.
